(** * Vendor-Places-Api: a shallow embedding of the request validator, the
      places handler, the configuration loaders and the Stack registration
      reconciler, with the properties the specification states about them. *)

From Stdlib Require Import ZArith String Ascii List Bool Lia DecimalString.
From Stdlib Require Import Floats.SpecFloat.
From stdpp Require Import base option list strings gmap.

#[local] Set Warnings "-register-all".
Local Open Scope string_scope.
Local Open Scope Z_scope.

(** ** JavaScript built-ins used by the sources

    Strings are sequences of code units; the embedding covers code units
    below 256 (one [ascii] each), so [String.length] is the JS [length]. *)
Module JS.

(** White space recognised by [String.prototype.trim] among the code
    units below 256: TAB, LF, VT, FF, CR, SP and NBSP. *)
Definition is_ws (c : ascii) : bool :=
  let n := nat_of_ascii c in
  ((9 <=? n)%nat && (n <=? 13)%nat) || (n =? 32)%nat || (n =? 160)%nat.

Fixpoint trimStart (s : string) : string :=
  match s with
  | EmptyString => EmptyString
  | String c r => if is_ws c then trimStart r else s
  end.

Fixpoint trimEnd (s : string) : string :=
  match s with
  | EmptyString => EmptyString
  | String c r =>
      match trimEnd r with
      | EmptyString => if is_ws c then EmptyString else String c EmptyString
      | r' => String c r'
      end
  end.

Definition trim (s : string) : string := trimEnd (trimStart s).

(** [s.split(sep)] for a one-character separator. *)
Fixpoint split (sep : ascii) (s : string) : list string :=
  match s with
  | EmptyString => [EmptyString]
  | String c r =>
      if Ascii.eqb c sep then EmptyString :: split sep r
      else match split sep r with
           | h :: t => String c h :: t
           | [] => [String c EmptyString]
           end
  end.

(** [s.includes(needle)]. *)
Fixpoint includes (needle s : string) : bool :=
  String.prefix needle s ||
  match s with
  | EmptyString => false
  | String _ r => includes needle r
  end.

(** [s.replace(/\/$/, "")]: without the [m] flag [$] matches at the end
    of the input only, so at most the last code unit is removed. *)
Fixpoint replace_trailing_slash (s : string) : string :=
  match s with
  | EmptyString => EmptyString
  | String c r =>
      match r with
      | EmptyString => if Ascii.eqb c "/" then EmptyString else s
      | _ => String c (replace_trailing_slash r)
      end
  end.

(** [String(n)] for a non-negative integer. *)
Definition string_of_nat (n : nat) : string :=
  NilZero.string_of_uint (Nat.to_uint n).

(** *** Numbers: IEEE 754 binary64, as [spec_float] with [prec = 53] and
    [emax = 1024]. *)
Definition number := spec_float.
Definition prec : Z := 53.
Definition emax : Z := 1024.

Definition NaN : number := S754_nan.
Definition isNaN (x : number) : bool :=
  match x with S754_nan => true | _ => false end.
Definition lt (x y : number) : bool := SFltb x y.
Definition gt (x y : number) : bool := SFltb y x.
Definition le (x y : number) : bool := SFleb x y.
Definition of_Z (z : Z) : number := binary_normalize prec emax z 0 false.

(** The Number nearest to [(-1)^sign * m * 10^e10], ties to even. *)
Definition round_decimal (sign : bool) (m : Z) (e10 : Z) : number :=
  if m =? 0 then S754_zero sign
  else
    let n := m * 10 ^ Z.max e10 0 in
    let d := 10 ^ Z.max (- e10) 0 in
    let '(q, e, l) := SFdiv_core_binary prec emax n 0 d 0 in
    binary_round_aux prec emax sign q e l.

Definition is_digit (c : ascii) : bool :=
  let n := nat_of_ascii c in (48 <=? n)%nat && (n <=? 57)%nat.

Fixpoint span_digits (s : string) : string * string :=
  match s with
  | EmptyString => (EmptyString, EmptyString)
  | String c r =>
      if is_digit c then let '(d, rest) := span_digits r in (String c d, rest)
      else (EmptyString, s)
  end.

Fixpoint digits_value (acc : Z) (s : string) : Z :=
  match s with
  | EmptyString => acc
  | String c r => digits_value (10 * acc + (Z.of_nat (nat_of_ascii c) - 48)) r
  end.

Definition take_sign (s : string) : bool * string :=
  match s with
  | String "-" r => (true, r)
  | String "+" r => (false, r)
  | _ => (false, s)
  end.

(** [ExponentPart]: [e] or [E], an optional sign and at least one digit;
    anything else leaves the exponent out of the parsed prefix. *)
Definition exponent_part (s : string) : Z :=
  match s with
  | String c r =>
      if Ascii.eqb c "e" || Ascii.eqb c "E" then
        let '(neg, r') := take_sign r in
        let '(ds, _) := span_digits r' in
        match ds with
        | EmptyString => 0
        | _ => if neg then - digits_value 0 ds else digits_value 0 ds
        end
      else 0
  | EmptyString => 0
  end.

(** [parseFloat(s)]: leading white space is skipped, the longest prefix
    that is a [StrDecimalLiteral] is converted, and [NaN] is returned
    when there is none. *)
Definition parseFloat (s : string) : number :=
  let '(sign, r) := take_sign (trimStart s) in
  if String.prefix "Infinity" r then S754_infinity sign
  else
    let '(ip, r1) := span_digits r in
    let '(fp, r2) :=
      match r1 with
      | String "." r1' => span_digits r1'
      | _ => (EmptyString, r1)
      end in
    match ip, fp with
    | EmptyString, EmptyString => NaN
    | _, _ =>
        round_decimal sign (digits_value 0 (ip ++ fp))
                      (exponent_part r2 - Z.of_nat (String.length fp))
    end.

End JS.

(** ** JavaScript values, as they arrive in a parsed JSON body or are built
    by the handlers. A missing property reads as [VUndefined]. *)
Inductive value :=
| VUndefined
| VNull
| VBool (b : bool)
| VNum (x : JS.number)
| VStr (s : string)
| VArr (l : list value)
| VObj (o : gmap string value).

(** [typeof v]. *)
Definition typeof (v : value) : string :=
  match v with
  | VUndefined => "undefined"
  | VNull => "object"
  | VBool _ => "boolean"
  | VNum _ => "number"
  | VStr _ => "string"
  | VArr _ => "object"
  | VObj _ => "object"
  end.

(** [ToBoolean v], the test behind [!v], [v || d] and [if (v)]. *)
Definition truthy (v : value) : bool :=
  match v with
  | VUndefined | VNull => false
  | VBool b => b
  | VNum (S754_zero _) | VNum S754_nan => false
  | VNum _ => true
  | VStr EmptyString => false
  | VStr _ => true
  | VArr _ | VObj _ => true
  end.

(** [v.k] for a property name that is not an array index or [length]. *)
Definition get (v : value) (k : string) : value :=
  match v with
  | VObj o => default VUndefined (o !! k)
  | _ => VUndefined
  end.

(** [undefined] or [null]: reading a property of either throws. *)
Definition nullish (v : value) : bool :=
  match v with VUndefined | VNull => true | _ => false end.

(** A call either returns or throws an [Error] with a message. *)
Inductive outcome (A : Type) :=
| Returned (a : A)
| Thrown (message : string).
Arguments Returned {A} a.
Arguments Thrown {A} message.

Definition bind {A B} (m : outcome A) (k : A -> outcome B) : outcome B :=
  match m with
  | Returned a => k a
  | Thrown e => Thrown e
  end.

Fixpoint map_outcome {A B} (f : A -> outcome B) (l : list A) : outcome (list B) :=
  match l with
  | [] => Returned []
  | x :: r => bind (f x) (fun y => bind (map_outcome f r) (fun ys => Returned (y :: ys)))
  end.

(** The message of the [TypeError] raised by [v.prop] on a nullish [v]. *)
Definition cannot_read (v : value) (prop : string) : string :=
  "Cannot read properties of " ++
  (match v with VNull => "null" | _ => "undefined" end) ++
  " (reading '" ++ prop ++ "')".

(** [process.env]. *)
Abbreviation environment := (gmap string string).

(** [process.env.K] seen as a condition: unset and empty are both falsy. *)
Definition env_truthy (v : option string) : bool :=
  match v with
  | Some (String _ _) => true
  | _ => false
  end.

(** [process.env.K || d]. *)
Definition env_or (v : option string) (d : string) : string :=
  match v with
  | Some (String c r) => String c r
  | _ => d
  end.

(** ** lib/custom/places-service.ts *)
Module PlacesService.

(** [errors.push(msg)] on the local array of [validateRequest]. *)
Definition push (errors : list string) (msg : string) : list string :=
  errors ++ [msg].

Definition msg_body : string := "Request body must be a JSON object".
Definition msg_query_missing : string := "Missing required field: 'query'".
Definition msg_query_type : string := "Field 'query' must be a string".
Definition msg_query_empty : string := "Field 'query' cannot be empty".
Definition msg_query_long : string :=
  "Field 'query' must be less than 2048 characters".
Definition msg_location_type : string :=
  "Field 'location' must be a string in 'lat,lng' format".
Definition msg_location_format : string :=
  "Field 'location' must be in 'lat,lng' format (e.g., '37.7749,-122.4194')".
Definition msg_location_numbers : string :=
  "Field 'location' must contain valid latitude and longitude numbers".
Definition msg_latitude : string := "Latitude must be between -90 and 90".
Definition msg_longitude : string := "Longitude must be between -180 and 180".
Definition msg_radius_type : string := "Field 'radius' must be a number".
Definition msg_radius_negative : string := "Field 'radius' must be non-negative".
Definition msg_radius_large : string :=
  "Field 'radius' must be 50000 meters or less".

(** The [query] branch of [validateRequest]. *)
Definition validate_query (request : value) (errors : list string) : list string :=
  let query := get request "query" in
  if negb (truthy query) then push errors msg_query_missing
  else match query with
       | VStr q =>
           if (String.length (JS.trim q) =? 0)%nat then push errors msg_query_empty
           else if (2048 <? String.length q)%nat then push errors msg_query_long
           else errors
       | _ => push errors msg_query_type
       end.

(** The [location] branch; [const [lat, lng] = parts.map(...)] reads the
    first two elements of the mapped array. *)
Definition validate_location (request : value) (errors : list string) : list string :=
  match get request "location" with
  | VUndefined => errors
  | VStr location =>
      let parts := JS.split "," location in
      if negb (length parts =? 2)%nat then push errors msg_location_format
      else
        let coords := map (fun p => JS.parseFloat (JS.trim p)) parts in
        let lat := nth 0 coords JS.NaN in
        let lng := nth 1 coords JS.NaN in
        if JS.isNaN lat || JS.isNaN lng then push errors msg_location_numbers
        else if JS.lt lat (JS.of_Z (-90)) || JS.gt lat (JS.of_Z 90)
             then push errors msg_latitude
        else if JS.lt lng (JS.of_Z (-180)) || JS.gt lng (JS.of_Z 180)
             then push errors msg_longitude
        else errors
  | _ => push errors msg_location_type
  end.

(** The [radius] branch. *)
Definition validate_radius (request : value) (errors : list string) : list string :=
  match get request "radius" with
  | VUndefined => errors
  | VNum radius =>
      if JS.lt radius (JS.of_Z 0) then push errors msg_radius_negative
      else if JS.gt radius (JS.of_Z 50000) then push errors msg_radius_large
      else errors
  | _ => push errors msg_radius_type
  end.

Definition validateRequest (request : value) : list string :=
  let errors : list string := [] in
  if negb (truthy request) || negb (String.eqb (typeof request) "object") then
    push errors msg_body
  else
    let errors := validate_query request errors in
    let errors := validate_location request errors in
    let errors := validate_radius request errors in
    errors.

Record PlaceSearchRequest := {
  query : string;
  location : option string;
  radius : option JS.number
}.

(** The JSON body of the Places API reply, with the fields [textSearch]
    reads: [status], [error_message] and [results]. *)
Record PlacesApiBody := {
  api_status : string;
  api_error_message : option string;
  api_results : option (list value)
}.

(** What [fetch(url)] followed by [response.json()] can do. *)
Inductive fetched :=
| FetchFailed (message : string)
| Fetched (ok : bool) (status : nat) (statusText : string)
          (json : outcome PlacesApiBody).

Definition format_photo (photo : value) : outcome value :=
  if nullish photo then Thrown (cannot_read photo "photo_reference")
  else Returned (VObj {[ "photo_reference" := get photo "photo_reference";
                         "height" := get photo "height";
                         "width" := get photo "width" ]}).

(** [...(result.photos && { photos: result.photos.slice(0, 2).map(..) })]:
    a falsy [photos] spreads nothing, an array contributes its first two
    entries, a string has [slice] but no [map] on the slice, and any other
    value has no [slice]. *)
Definition with_photos (result : value) (place : gmap string value)
  : outcome (gmap string value) :=
  let photos := get result "photos" in
  if negb (truthy photos) then Returned place
  else match photos with
       | VArr l =>
           bind (map_outcome format_photo (take 2 l))
                (fun ps => Returned (<["photos" := VArr ps]> place))
       | VStr _ => Thrown "result.photos.slice(...).map is not a function"
       | _ => Thrown "result.photos.slice is not a function"
       end.

(** The callback of [(data.results || []).map(...)]. *)
Definition format_place (result : value) : outcome value :=
  if nullish result then Thrown (cannot_read result "place_id")
  else
    let geometry := get result "geometry" in
    if nullish geometry then Thrown (cannot_read geometry "location")
    else
      let loc := get geometry "location" in
      if nullish loc then Thrown (cannot_read loc "lat")
      else
        bind (with_photos result
                {[ "place_id" := get result "place_id";
                   "name" := get result "name";
                   "formatted_address" := get result "formatted_address";
                   "rating" := get result "rating";
                   "price_level" := get result "price_level";
                   "types" := (if truthy (get result "types")
                               then get result "types" else VArr []);
                   "geometry" :=
                     VObj {[ "location" :=
                               VObj {[ "lat" := get loc "lat";
                                       "lng" := get loc "lng" ]} ]} ]})
             (fun place => Returned (VObj place)).

(** The [try] block of [textSearch]. [now] is [new Date().toISOString()]
    at the time the result is built. *)
Definition textSearch_try (env : environment) (reply : fetched) (now : string)
                          (request : PlaceSearchRequest) : outcome value :=
  if negb (env_truthy (env !! "GOOGLE_PLACES_API_KEY")) then
    Thrown "Google Places API key not configured"
  else if (String.length (query request) =? 0)%nat
          || (String.length (JS.trim (query request)) =? 0)%nat then
    Thrown "Query parameter is required and cannot be empty"
  else
    let bad_location :=
      match location request with
      | Some (String c r) =>
          let coords := map (fun coord => JS.parseFloat (JS.trim coord))
                            (JS.split "," (String c r)) in
          JS.isNaN (nth 0 coords JS.NaN) || JS.isNaN (nth 1 coords JS.NaN)
      | _ => false
      end in
    if bad_location then
      Thrown "Location must be in 'lat,lng' format (e.g., '37.7749,-122.4194')"
    else if match radius request with
            | Some r => JS.lt r (JS.of_Z 0) || JS.gt r (JS.of_Z 50000)
            | None => false
            end then
      Thrown "Radius must be between 0 and 50000 meters"
    else
      match reply with
      | FetchFailed message => Thrown message
      | Fetched ok status statusText json =>
          if negb ok then
            Thrown ("Places API HTTP error: " ++ JS.string_of_nat status
                      ++ " " ++ statusText)
          else
            bind json (fun data =>
              if negb (String.eqb (api_status data) "OK")
                 && negb (String.eqb (api_status data) "ZERO_RESULTS") then
                Thrown ("Places API error: " ++ api_status data ++
                        match api_error_message data with
                        | Some (String c r) => " - " ++ String c r
                        | _ => ""
                        end)
              else
                bind (map_outcome format_place (default [] (api_results data)))
                     (fun places =>
                        Returned (VObj
                          {[ "status" := VStr (api_status data);
                             "results" := VArr places;
                             "metadata" :=
                               VObj {[ "query" := VStr (query request);
                                       "cost" := VStr "$0.01";
                                       "timestamp" := VStr now ]} ]})))
      end.

(** The [catch] block: validation errors are re-thrown as they are,
    errors that mention the API are wrapped, the rest is replaced. *)
Definition textSearch_catch (message : string) : string :=
  if JS.includes "required" message || JS.includes "format" message
     || JS.includes "must be" message then message
  else if JS.includes "API" message then "Places API unavailable: " ++ message
  else "Places search failed. Please try again later.".

Definition textSearch (env : environment) (reply : fetched) (now : string)
                      (request : PlaceSearchRequest) : outcome value :=
  match textSearch_try env reply now request with
  | Returned v => Returned v
  | Thrown message => Thrown (textSearch_catch message)
  end.

End PlacesService.

(** ** Configuration: src/config/x402.ts and lib/custom/config/api-config.ts *)
Module Config.

Record PaymentConfig := {
  payTo : string;
  facilitatorUrl : string;
  network : string;
  priceUsd : string
}.

(** Module evaluation and server start either reach [process.exit(code)]
    or carry on with a value. *)
Inductive startup (A : Type) :=
| Exit (code : Z)
| Loaded (a : A).
Arguments Exit {A} code.
Arguments Loaded {A} a.

(** [Object.entries(vars).filter(([key, value]) => keep key value)
    .map(([key]) => key)]. *)
Definition missing_keys (keep : string -> option string -> bool)
                        (vars : list (string * option string)) : list string :=
  map fst (List.filter (fun kv => keep (fst kv) (snd kv)) vars).

Definition validNetworks : list string :=
  ["base"; "base-sepolia"; "avalanche"; "solana"].

(** [validNetworks.includes(n)]. *)
Definition includes_network (n : string) : bool :=
  existsb (String.eqb n) validNetworks.

(** src/config/x402.ts, evaluated when the module is first imported. *)
Definition requiredEnvVars (env : environment) : list (string * option string) :=
  [ ("GOOGLE_PLACES_API_KEY", env !! "GOOGLE_PLACES_API_KEY");
    ("PAYMENT_WALLET_ADDRESS", env !! "PAYMENT_WALLET_ADDRESS");
    ("FACILITATOR_URL",
      Some (env_or (env !! "FACILITATOR_URL") "https://x402.org/facilitator"));
    ("NETWORK", Some (env_or (env !! "NETWORK") "base"));
    ("PAYMENT_PRICE_USD", Some (env_or (env !! "PAYMENT_PRICE_USD") "0.01")) ].

Definition x402_module (env : environment) : startup PaymentConfig :=
  let missing :=
    missing_keys (fun _ value => negb (env_truthy value)) (requiredEnvVars env) in
  if (0 <? length missing)%nat then Exit 1
  else
    let NETWORK := env_or (env !! "NETWORK") "base" in
    if negb (includes_network NETWORK) then Exit 1
    else Loaded {| payTo := default "" (env !! "PAYMENT_WALLET_ADDRESS");
                   facilitatorUrl :=
                     env_or (env !! "FACILITATOR_URL") "https://x402.org/facilitator";
                   network := NETWORK;
                   priceUsd := env_or (env !! "PAYMENT_PRICE_USD") "0.01" |}.

(** lib/custom/config/api-config.ts: [null] is [None]. *)
Definition getConfig (env : environment) : option PaymentConfig :=
  let config :=
    [ ("GOOGLE_PLACES_API_KEY", env !! "GOOGLE_PLACES_API_KEY");
      ("PAYMENT_WALLET_ADDRESS", env !! "PAYMENT_WALLET_ADDRESS");
      ("FACILITATOR_URL", env !! "FACILITATOR_URL");
      ("NETWORK", Some (env_or (env !! "NETWORK") "base"));
      ("PAYMENT_PRICE_USD", Some (env_or (env !! "PAYMENT_PRICE_USD") "0.01")) ] in
  let missing :=
    missing_keys (fun key value =>
                    negb (env_truthy value) && negb (String.eqb key "NETWORK")
                    && negb (String.eqb key "PAYMENT_PRICE_USD")) config in
  if (0 <? length missing)%nat then None
  else Some {| payTo := default "" (env !! "PAYMENT_WALLET_ADDRESS");
               facilitatorUrl := default "" (env !! "FACILITATOR_URL");
               network := env_or (env !! "NETWORK") "base";
               priceUsd := env_or (env !! "PAYMENT_PRICE_USD") "0.01" |}.

(** [paymentRoutes["POST /api/places/text-search"].inputSchema
    .properties.query]: the published bounds on [query]. *)
Definition inputSchema_query_minLength : nat := 1.
Definition inputSchema_query_maxLength : nat := 512.

(** [outputSchema.properties.metadata.required] of the same route. *)
Definition outputSchema_metadata_required : list string :=
  ["cost"; "protocol"; "network"; "payment_method"].

End Config.

(** ** The Express server (src/unnamed/part_001) *)
Module Server.
Import Config.

(** Start-up of the server module: its imports are evaluated first, among
    them src/config/x402.ts, then [getConfig()] and the check of the CDP
    credentials for the [base] network. *)
Definition start (env : environment) : startup PaymentConfig :=
  match x402_module env with
  | Exit code => Exit code
  | Loaded _ =>
      match getConfig env with
      | None => Exit 1
      | Some x402Config =>
          if String.eqb (network x402Config) "base"
             && (negb (env_truthy (env !! "CDP_API_KEY_ID"))
                 || negb (env_truthy (env !! "CDP_API_KEY_SECRET")))
          then Exit 1
          else Loaded x402Config
      end
  end.

Record response := {
  status : nat;
  body : value
}.

(** The payment metadata the priced route writes into its reply. *)
Definition payment_metadata (x402Config : PaymentConfig) (now : string) : value :=
  VObj {[ "cost" := VStr ("$" ++ priceUsd x402Config);
          "protocol" := VStr "x402 v1.0";
          "payment_method" := VStr "gasless_micropayment";
          "facilitator_used" := VBool true;
          "network" := VStr (network x402Config);
          "timestamp" := VStr now ]}.

(** [{ ...searchResults, metadata: m }]: the own properties of
    [searchResults] are copied, then [metadata] is defined. *)
Definition with_metadata (searchResults : value) (m : value) : value :=
  match searchResults with
  | VObj o => VObj (<["metadata" := m]> o)
  | _ => VObj {[ "metadata" := m ]}
  end.

Definition validation_failure (errors : list string) : response :=
  {| status := 400;
     body := VObj
       {[ "error" := VStr "Invalid Request";
          "message" := VStr "Request validation failed";
          "details" :=
            VObj {[ "errors" := VArr (map VStr errors);
                    "example" :=
                      VObj {[ "query" := VStr "pizza restaurants";
                              "location" := VStr "37.7749,-122.4194";
                              "radius" := VNum (JS.of_Z 2000) ]} ]} ]} |}.

Definition internal_error (development : bool) (message : string) : response :=
  {| status := 500;
     body := VObj
       {[ "error" := VStr "Internal Server Error";
          "message" := VStr "Places search failed";
          "details" := (if development then VStr message else VUndefined) ]} |}.

(** The request the handler passes to [textSearch]:
    [{ query: req.body.query.trim(), location: req.body.location?.trim(),
       radius: req.body.radius }]. *)
Definition search_request (req_body : value) : outcome PlacesService.PlaceSearchRequest :=
  match get req_body "query" with
  | VStr q =>
      Returned {| PlacesService.query := JS.trim q;
                  PlacesService.location :=
                    match get req_body "location" with
                    | VStr l => Some (JS.trim l)
                    | _ => None
                    end;
                  PlacesService.radius :=
                    match get req_body "radius" with
                    | VNum r => Some r
                    | _ => None
                    end |}
  | _ => Thrown "req.body.query.trim is not a function"
  end.

(** [app.post('/api/places/text-search', ...)], run once the payment
    middleware has admitted the request. [now_search] and [now_reply] are
    the two readings of the clock. *)
Definition text_search_route (x402Config : PaymentConfig) (development : bool)
    (env : environment) (reply : PlacesService.fetched)
    (now_search now_reply : string) (req_body : value) : response :=
  let validationErrors := PlacesService.validateRequest req_body in
  if (0 <? length validationErrors)%nat then validation_failure validationErrors
  else
    match bind (search_request req_body)
               (PlacesService.textSearch env reply now_search) with
    | Returned searchResults =>
        {| status := 200;
           body := with_metadata searchResults
                                 (payment_metadata x402Config now_reply) |}
    | Thrown message => internal_error development message
    end.

End Server.

(** ** The Stack registration service (src/unnamed/part_000) and the
    status route of src/routes/register.ts *)
Module Registration.

Record RegistrationConfig := {
  stackUrl : string;
  selfUrl : string;
  name : option string;
  description : option string;
  category : option string;
  retryAttempts : option nat;
  retryDelayMs : option Z
}.

(** [Required<RegistrationConfig>], as the constructor fills it. *)
Record ServiceConfig := {
  cfg_stackUrl : string;
  cfg_selfUrl : string;
  cfg_name : string;
  cfg_description : string;
  cfg_category : string;
  cfg_retryAttempts : nat;
  cfg_retryDelayMs : Z
}.

Record RegistrationResult := {
  success : bool;
  vendorId : option string;
  error : option string;
  alreadyRegistered : option bool
}.

(** [serviceDiscovery.service] and [serviceDiscovery.description]. *)
Definition serviceDiscovery_service : string := "Places".
Definition serviceDiscovery_description : string :=
  "Google Places API Wrapper with X402 gasless micropayments for comprehensive location search and business discovery".

(** [v || d] on an optional string. *)
Definition or_string (v : option string) (d : string) : string :=
  match v with
  | Some (String c r) => String c r
  | _ => d
  end.

(** The constructor; [??] replaces only a missing value. *)
Definition new_config (config : RegistrationConfig) : ServiceConfig :=
  {| cfg_stackUrl := stackUrl config;
     cfg_selfUrl := selfUrl config;
     cfg_name := or_string (name config) serviceDiscovery_service;
     cfg_description := or_string (description config) serviceDiscovery_description;
     cfg_category := or_string (category config) "api";
     cfg_retryAttempts := default 3%nat (retryAttempts config);
     cfg_retryDelayMs := default 5000 (retryDelayMs config) |}.

(** The service object: its configuration and the private flag
    [registered], which starts as [false]. *)
Record service := {
  config : ServiceConfig;
  registered : bool
}.

Definition new_service (c : RegistrationConfig) : service :=
  {| config := new_config c; registered := false |}.

Definition set_registered (s : service) : service :=
  {| config := config s; registered := true |}.

(** The reply of [POST /api/vendors/register], with the fields
    [attemptRegistration] reads: [response.ok], [response.status],
    [data.success], [data.vendor?.id] and [data.error]. *)
Record RegisterReply := {
  reply_ok : bool;
  reply_status : nat;
  data_success : bool;
  data_vendor_id : option string;
  data_error : option string
}.

(** [fetch] followed by [response.json()] returns a reply or throws. *)
Definition registry_call := outcome RegisterReply.

Definition attemptRegistration (call : registry_call) : outcome RegistrationResult :=
  bind call (fun r =>
    if negb (reply_ok r) || negb (data_success r) then
      Returned {| success := false;
                  vendorId := None;
                  error := Some (or_string (data_error r)
                                   ("HTTP " ++ JS.string_of_nat (reply_status r)));
                  alreadyRegistered := None |}
    else
      Returned {| success := true;
                  vendorId := data_vendor_id r;
                  error := None;
                  alreadyRegistered := None |}).

(** What a run does to the world, in order: calls of the registry and
    timer waits. *)
Inductive event :=
| RegisterCall (attempt : nat)
| Delay (ms : Z)
| VendorsCall
| HealthCall.

Record run (A : Type) := {
  result : A;
  after : service;
  trace : list event
}.
Arguments result {A} r.
Arguments after {A} r.
Arguments trace {A} r.

(** [result.error?.includes("already registered")]. *)
Definition error_says_already_registered (r : RegistrationResult) : bool :=
  match error r with
  | Some e => JS.includes "already registered" e
  | None => false
  end.

Definition failure_result (c : ServiceConfig) : RegistrationResult :=
  {| success := false;
     vendorId := None;
     error := Some ("Registration failed after "
                      ++ JS.string_of_nat (cfg_retryAttempts c) ++ " attempts");
     alreadyRegistered := None |}.

Definition already_registered_result : RegistrationResult :=
  {| success := true; vendorId := None; error := None;
     alreadyRegistered := Some true |}.

(** The wait that closes an iteration of the loop. *)
Definition wait_before_retry (c : ServiceConfig) (attempt : nat) : list event :=
  if (attempt <? cfg_retryAttempts c)%nat then [Delay (cfg_retryDelayMs c)] else [].

(** The [for] loop of [register], from [attempt] on; [left] counts the
    iterations that remain, so the loop is entered with
    [attempt = 1] and [left = retryAttempts]. [registry n] is what the
    registry does when it is called for attempt [n]. *)
Fixpoint register_loop (registry : nat -> registry_call) (s : service)
                       (left attempt : nat) : run RegistrationResult :=
  match left with
  | O => {| result := failure_result (config s); after := s; trace := [] |}
  | S left' =>
      let continue :=
        let rest := register_loop registry s left' (S attempt) in
        {| result := result rest;
           after := after rest;
           trace := RegisterCall attempt
                      :: wait_before_retry (config s) attempt ++ trace rest |} in
      match attemptRegistration (registry attempt) with
      | Returned r =>
          if success r then
            {| result := r; after := set_registered s;
               trace := [RegisterCall attempt] |}
          else if error_says_already_registered r then
            {| result := already_registered_result; after := set_registered s;
               trace := [RegisterCall attempt] |}
          else continue
      | Thrown _ => continue
      end
  end.

Definition register (registry : nat -> registry_call) (s : service)
  : run RegistrationResult :=
  if registered s then
    {| result := already_registered_result; after := s; trace := [] |}
  else register_loop registry s (cfg_retryAttempts (config s)) 1.

(** [checkStackHealth]: [None] is a fetch that throws or times out. *)
Definition checkStackHealth (health : option bool) (s : service) : run bool :=
  {| result := default false health; after := s; trace := [HealthCall] |}.

Record Vendor := {
  id : string;
  url : string
}.

(** The reply of [GET /api/vendors]: [response.ok] and [data.vendors]. *)
Record VendorsReply := {
  vendors_ok : bool;
  vendors : option (list Vendor)
}.

(** The predicate both callers give to [vendors.find]. *)
Definition is_our_vendor (self : string) (v : Vendor) : bool :=
  String.eqb (url v) self
  || String.eqb (JS.replace_trailing_slash (url v)) (JS.replace_trailing_slash self).

(** [vendors.find(p)]: the first element that satisfies [p]. *)
Definition find_our_vendor (self : string) (vs : list Vendor) : option Vendor :=
  List.find (is_our_vendor self) vs.

Record Verification := {
  v_registered : bool;
  v_vendorId : option string
}.

Definition verifyRegistration (call : outcome VendorsReply) (s : service)
  : run Verification :=
  let not_registered :=
    {| result := {| v_registered := false; v_vendorId := None |};
       after := s; trace := [VendorsCall] |} in
  match call with
  | Thrown _ => not_registered
  | Returned r =>
      if negb (vendors_ok r) then not_registered
      else
        match find_our_vendor (cfg_selfUrl (config s)) (default [] (vendors r)) with
        | Some ourVendor =>
            {| result := {| v_registered := true; v_vendorId := Some (id ourVendor) |};
               after := set_registered s; trace := [VendorsCall] |}
        | None => not_registered
        end
  end.

(** [GET /api/register/status] of src/routes/register.ts, on a reply
    that arrived: [registered] and [vendor] of its JSON body. *)
Definition status_route (serverUrl : string) (r : VendorsReply)
  : bool * option Vendor :=
  if negb (vendors_ok r) then (false, None)
  else
    let ourVendor := find_our_vendor serverUrl (default [] (vendors r)) in
    (if ourVendor is Some _ then true else false, ourVendor).

(** The calls a holder of the service object can make, each with what
    the registry answers to it. *)
Inductive operation :=
| CallRegister (registry : nat -> registry_call)
| CallVerify (call : outcome VendorsReply)
| CallHealth (health : option bool).

Definition after_operation (s : service) (op : operation) : service :=
  match op with
  | CallRegister registry => after (register registry s)
  | CallVerify call => after (verifyRegistration call s)
  | CallHealth health => after (checkStackHealth health s)
  end.

Definition after_operations (s : service) (ops : list operation) : service :=
  fold_left after_operation ops s.

End Registration.

(** ** The payment protocol in front of the priced route

    The server installs [paymentMiddleware] of the x402-express package in
    front of [POST /api/places/text-search]; the package is a dependency
    and none of its code is among the sources, which only hold the call.
    Everything in this module is therefore written from the specification
    (sections 3, 4.2 and 4.3), not from code. *)
Module PaymentProtocol.

(** Modelled from the spec: the PaymentRequirement descriptor of section 3,
    which the missing middleware builds for a 402 challenge. *)
Record PaymentRequirement := {
  scheme : string;
  network : string;
  payTo : string;
  maxAmountRequired : string;
  asset : string;
  resource : string
}.

(** Modelled from the spec: the [authorization] part of the payment proof
    (section 3) that the missing middleware decodes. *)
Record Authorization := {
  from : string;
  to : string;
  value : string;
  validAfter : string;
  validBefore : string;
  nonce : string
}.

(** Modelled from the spec: the AuthorizationPayload envelope of section 3,
    read by the missing middleware from the [X-Payment] header. *)
Record AuthorizationPayload := {
  x402Version : nat;
  payload_scheme : string;
  payload_network : string;
  signature : string;
  authorization : Authorization
}.

(** Modelled from the spec: what the facilitator, consulted by the missing
    middleware, can answer (section 4.3): approval, a negative verdict, or
    no answer. *)
Inductive verdict := Approved | Denied | Unreachable.

(** Modelled from the spec: the states of the Payment Challenge State
    Machine of section 4.3, which the missing middleware implements. *)
Inductive state := StUnchallenged | StChallenged | StVerifying | StAdmitted | StRejected.

(** Modelled from the spec: what the missing middleware does with a
    request, as far as section 4.3 fixes it: the HTTP status it answers
    with ([None] when the request goes on to the protected handler, which
    then answers), the state the request ends in, and whether the
    protected handler ran. *)
Record reply := {
  http_status : option nat;
  final_state : state;
  handler_ran : bool
}.

(** Modelled from the spec: the digits test of the decimal-string prices of
    section 4.2, for the conversion missing with the middleware. *)
Fixpoint all_digits (s : string) : bool :=
  match s with
  | EmptyString => true
  | String c r => JS.is_digit c && all_digits r
  end.

(** Modelled from the spec: [n] zero digits, used to pad the fraction in
    the conversion missing with the middleware. *)
Fixpoint zeros (n : nat) : string :=
  match n with
  | O => EmptyString
  | S n' => String "0" (zeros n')
  end.

(** Modelled from the spec: an integer string (section 3,
    [maxAmountRequired]) carries no leading zeros; part of the conversion
    missing with the middleware. *)
Fixpoint strip_leading_zeros (s : string) : string :=
  match s with
  | String c (String _ _ as t) =>
      if Ascii.eqb c "0" then strip_leading_zeros t else s
  | _ => s
  end.

(** Modelled from the spec: the minor-unit conversion of the Payment
    Requirement Builder, which is inside the x402-express package and
    missing from the sources. Section 4.2 asks for exact decimal
    arithmetic with no binary-float intermediate: the digits of the
    price are shifted by [decimals] places, and a price with more
    fraction digits than that has no exact minor-unit amount. *)
Definition toMinorUnits (decimals : nat) (price : string) : option string :=
  let '(ip, rest) := JS.span_digits price in
  let fraction :=
    match rest with
    | EmptyString => Some EmptyString
    | String "." r =>
        let '(fp, rest') := JS.span_digits r in
        match fp, rest' with
        | String _ _, EmptyString => Some fp
        | _, _ => None
        end
    | _ => None
    end in
  match ip, fraction with
  | String _ _, Some fp =>
      if (String.length fp <=? decimals)%nat then
        Some (strip_leading_zeros
                (ip ++ fp ++ zeros (decimals - String.length fp)))
      else None
  | _, _ => None
  end.

(** Modelled from the spec: [build(route, profile)] of the Payment
    Requirement Builder (section 4.2), missing from the sources like the
    rest of the middleware; the stablecoin has 6 decimals. *)
Definition build (price : string) (net pay_to stablecoin path : string)
  : option PaymentRequirement :=
  match toMinorUnits 6 price with
  | Some amount =>
      Some {| scheme := "exact"; network := net; payTo := pay_to;
              maxAmountRequired := amount; asset := stablecoin;
              resource := path |}
  | None => None
  end.

Section Machine.
(** The Authorization Payload Codec ([None] is a decode failure:
    malformed base64 or missing sub-fields) and the facilitator. *)
Variable decode : string -> option AuthorizationPayload.
Variable facilitator : AuthorizationPayload -> PaymentRequirement -> verdict.

(** Modelled from the spec: the comparison of a decoded proof with the
    route's requirement (section 4.3: network, [to] and [value]), done by
    the missing middleware. *)
Definition matches_requirement (r : PaymentRequirement) (p : AuthorizationPayload) : bool :=
  String.eqb (payload_network p) (network r)
  && String.eqb (to (authorization p)) (payTo r)
  && String.eqb (value (authorization p)) (maxAmountRequired r).

(** Modelled from the spec: the Payment Challenge State Machine of
    section 4.3, which the sources delegate to [paymentMiddleware] of
    x402-express. [route] is the requirement of a priced route or
    [None] for an unpriced one, [proof] the [X-Payment] header. *)
Definition handle (route : option PaymentRequirement) (proof : option string) : reply :=
  match route with
  | None => {| http_status := None; final_state := StUnchallenged; handler_ran := true |}
  | Some r =>
      match proof with
      | None =>
          {| http_status := Some 402%nat; final_state := StChallenged;
             handler_ran := false |}
      | Some header =>
          match decode header with
          | None =>
              {| http_status := Some 400%nat; final_state := StRejected;
                 handler_ran := false |}
          | Some p =>
              if negb (matches_requirement r p) then
                {| http_status := Some 400%nat; final_state := StRejected;
                   handler_ran := false |}
              else
                match facilitator p r with
                | Approved =>
                    {| http_status := None; final_state := StAdmitted;
                       handler_ran := true |}
                | Denied | Unreachable =>
                    {| http_status := Some 402%nat; final_state := StRejected;
                       handler_ran := false |}
                end
          end
      end
  end.
End Machine.

End PaymentProtocol.

(** * Properties

    ** Vocabulary of the statements *)
Module Shapes.
Import PlacesService.

(** [parts.map(p => parseFloat(p.trim()))] for a location string. *)
Definition coordinates (loc : string) : list JS.number :=
  map (fun p => JS.parseFloat (JS.trim p)) (JS.split "," loc).

Definition valid_latitude (lat : JS.number) : bool :=
  JS.le (JS.of_Z (-90)) lat && JS.le lat (JS.of_Z 90).

Definition valid_longitude (lng : JS.number) : bool :=
  JS.le (JS.of_Z (-180)) lng && JS.le lng (JS.of_Z 180).

(** The three shapes of a location string: two coordinates in range, a
    number of comma-separated parts other than two, and two numbers of
    which the first is outside [-90, 90]. *)
Definition two_valid_coordinates (loc : string) : bool :=
  match coordinates loc with
  | [lat; lng] => valid_latitude lat && valid_longitude lng
  | _ => false
  end.

Definition wrong_part_count (loc : string) : bool :=
  negb (length (JS.split "," loc) =? 2)%nat.

Definition latitude_out_of_range (loc : string) : bool :=
  match coordinates loc with
  | [lat; lng] =>
      negb (JS.isNaN lat) && negb (JS.isNaN lng)
      && (JS.lt lat (JS.of_Z (-90)) || JS.gt lat (JS.of_Z 90))
  | _ => false
  end.

Definition location_absent_or_valid (request : value) : bool :=
  match get request "location" with
  | VUndefined => true
  | VStr loc => two_valid_coordinates loc
  | _ => false
  end.

Definition radius_absent_or_valid (request : value) : bool :=
  match get request "radius" with
  | VUndefined => true
  | VNum r => JS.le (JS.of_Z 0) r && JS.le r (JS.of_Z 50000)
  | _ => false
  end.

(** The bounds the published input schema puts on [query]. *)
Definition within_published_schema (q : string) : bool :=
  (Config.inputSchema_query_minLength <=? String.length q)%nat
  && (String.length q <=? Config.inputSchema_query_maxLength)%nat.

(** A request body with a query and a location. *)
Definition location_request (loc : string) : gmap string value :=
  {[ "query" := VStr "coffee shops"; "location" := VStr loc ]}.

(** A query of [n] letters. *)
Definition long_query (n : nat) : string :=
  string_of_list_ascii (repeat "a"%char n).

End Shapes.

(** ** Example inputs *)
Module Examples.

Definition env : environment :=
  {[ "GOOGLE_PLACES_API_KEY" := "key"; "PAYMENT_WALLET_ADDRESS" := "0xabc";
     "FACILITATOR_URL" := "https://stack.perkos.xyz" ]}.

Definition x402Config : Config.PaymentConfig :=
  {| Config.payTo := "0xabc"; Config.facilitatorUrl := "https://stack.perkos.xyz";
     Config.network := "avalanche"; Config.priceUsd := "0.05" |}.

(** A Places API reply with one result. *)
Definition cafe : value :=
  VObj {[ "place_id" := VStr "p1"; "name" := VStr "Cafe";
          "formatted_address" := VStr "1 Main St";
          "geometry" :=
            VObj {[ "location" :=
                      VObj {[ "lat" := VNum (JS.of_Z 37);
                              "lng" := VNum (JS.of_Z (-122)) ]} ]} ]}.

Definition reply : PlacesService.fetched :=
  PlacesService.Fetched true 200 "OK"
    (Returned {| PlacesService.api_status := "OK";
                 PlacesService.api_error_message := None;
                 PlacesService.api_results := Some [cafe] |}).

Definition req_body : value :=
  VObj {[ "query" := VStr "coffee shops"; "location" := VStr "37.7749,-122.4194" ]}.

(** The same environment with a network outside [validNetworks]. *)
Definition env_ethereum : environment := <["NETWORK" := "ethereum"]> env.

Definition search_time : string := "2025-01-01T00:00:00.000Z".
Definition reply_time : string := "2025-01-01T00:00:00.150Z".

(** The call of [textSearch] the route makes for [req_body], and the
    value it returns. *)
Definition search : outcome value :=
  bind (Server.search_request req_body)
       (PlacesService.textSearch env reply search_time).

Definition searchResults : value :=
  VObj {[ "status" := VStr "OK";
          "results" :=
            VArr [ VObj {[ "place_id" := VStr "p1"; "name" := VStr "Cafe";
                           "formatted_address" := VStr "1 Main St";
                           "rating" := VUndefined;
                           "price_level" := VUndefined;
                           "types" := VArr [];
                           "geometry" :=
                             VObj {[ "location" :=
                                       VObj {[ "lat" := VNum (JS.of_Z 37);
                                               "lng" := VNum (JS.of_Z (-122)) ]} ]} ]} ];
          "metadata" := VObj {[ "query" := VStr "coffee shops";
                                "cost" := VStr "$0.01";
                                "timestamp" := VStr search_time ]} ]}.

Definition route_reply : Server.response :=
  Server.text_search_route x402Config false env reply search_time reply_time req_body.

End Examples.

(** ** Vocabulary for runs of the registration service *)
Module Runs.
Import Registration.

(** The reply to an attempt indicates that the vendor is already
    registered: the attempt is unsuccessful and its error says so. *)
Definition says_already_registered (call : registry_call) : bool :=
  match attemptRegistration call with
  | Returned r => negb (success r) && error_says_already_registered r
  | Thrown _ => false
  end.

(** The attempt fails: it throws, or is unsuccessful with an error that
    does not say "already registered". *)
Definition fails (call : registry_call) : bool :=
  match attemptRegistration call with
  | Returned r => negb (success r) && negb (error_says_already_registered r)
  | Thrown _ => true
  end.

(** [left] attempts numbered from [attempt], with a wait of [ms] between
    two consecutive ones and none after the last. *)
Fixpoint attempts_from (ms : Z) (left attempt : nat) : list event :=
  match left with
  | O => []
  | S left' =>
      match left' with
      | O => [RegisterCall attempt]
      | S _ => RegisterCall attempt :: Delay ms :: attempts_from ms left' (S attempt)
      end
  end.

Definition is_call (e : event) : bool :=
  match e with RegisterCall _ => true | _ => false end.

Definition is_delay (e : event) : bool :=
  match e with Delay _ => true | _ => false end.

Definition count_calls (t : list event) : nat := length (List.filter is_call t).
Definition count_delays (t : list event) : nat := length (List.filter is_delay t).

(** The operation reports the vendor as registered to its caller. *)
Definition reports_registered (s : service) (op : operation) : bool :=
  match op with
  | CallRegister registry => success (result (register registry s))
  | CallVerify call => v_registered (result (verifyRegistration call s))
  | CallHealth _ => false
  end.

Fixpoint ends_with_slash (s : string) : bool :=
  match s with
  | EmptyString => false
  | String c r =>
      match r with
      | EmptyString => Ascii.eqb c "/"
      | _ => ends_with_slash r
      end
  end.

(** A service built with the defaults of the constructor. *)
Definition default_service (self : string) : service :=
  new_service {| stackUrl := "http://localhost:3005"; selfUrl := self;
                 name := None; description := None; category := None;
                 retryAttempts := None; retryDelayMs := None |}.

(** Stubbed registries: one that always times out, one that always
    answers [{success: false, error: "already registered"}], and one that
    answers a server error first and "already registered" to the second
    attempt. *)
Definition always_times_out : nat -> registry_call :=
  fun _ => Thrown "The operation was aborted due to timeout".

Definition already_registered_reply : RegisterReply :=
  {| reply_ok := false; reply_status := 409; data_success := false;
     data_vendor_id := None; data_error := Some "already registered" |}.

Definition server_error_reply : RegisterReply :=
  {| reply_ok := false; reply_status := 500; data_success := false;
     data_vendor_id := None; data_error := None |}.

Definition always_already_registered : nat -> registry_call :=
  fun _ => Returned already_registered_reply.

Definition already_registered_at_second : nat -> registry_call :=
  fun n => if (n =? 2)%nat then Returned already_registered_reply
           else Returned server_error_reply.

Definition vendors_reply (vs : list Vendor) : VendorsReply :=
  {| vendors_ok := true; vendors := Some vs |}.

End Runs.

(** ** Vocabulary for the payment protocol *)
Module Prices.
Import PaymentProtocol.

(** The decimal string with integer digits [ip] and fraction digits
    [fp]; its value is [digits_value 0 (ip ++ fp) / 10 ^ length fp]. *)
Definition decimal_string (ip fp : string) : string :=
  match fp with
  | EmptyString => ip
  | _ => ip ++ "." ++ fp
  end.

(** An integer string in canonical form: digits, not empty, and no
    leading zero except for "0" itself. *)
Definition canonical (s : string) : bool :=
  all_digits s &&
  match s with
  | EmptyString => false
  | String c (String _ _) => negb (Ascii.eqb c "0")
  | String _ EmptyString => true
  end.

(** The requirement of the priced route for the default price. *)
Definition requirement : PaymentRequirement :=
  {| scheme := "exact"; network := "avalanche"; payTo := "0xabc";
     maxAmountRequired := "10000"; asset := "0xusdc";
     resource := "/api/places/text-search" |}.

(** A decoded proof that pays another address. *)
Definition wrong_payee : AuthorizationPayload :=
  {| x402Version := 1; payload_scheme := "exact"; payload_network := "avalanche";
     signature := "0xsig";
     authorization :=
       {| from := "0xpayer"; to := "0xother"; value := "10000";
          validAfter := "0"; validBefore := "9999999999"; nonce := "0x01" |} |}.

End Prices.

(** ** The rest of the places service and of its route *)
Module Search.
Import PlacesService.

(** The part of [textSearch] that follows its parameter checks: the
    request to the Places API, the check of the reply and the formatting
    of the results. *)
Definition call_places_api (reply : fetched) (now : string)
                           (request : PlaceSearchRequest) : outcome value :=
  match reply with
  | FetchFailed message => Thrown message
  | Fetched ok status statusText json =>
      if negb ok then
        Thrown ("Places API HTTP error: " ++ JS.string_of_nat status
                  ++ " " ++ statusText)
      else
        bind json (fun data =>
          if negb (String.eqb (api_status data) "OK")
             && negb (String.eqb (api_status data) "ZERO_RESULTS") then
            Thrown ("Places API error: " ++ api_status data ++
                    match api_error_message data with
                    | Some (String c r) => " - " ++ String c r
                    | _ => ""
                    end)
          else
            bind (map_outcome format_place (default [] (api_results data)))
                 (fun places =>
                    Returned (VObj
                      {[ "status" := VStr (api_status data);
                         "results" := VArr places;
                         "metadata" :=
                           VObj {[ "query" := VStr (query request);
                                   "cost" := VStr "$0.01";
                                   "timestamp" := VStr now ]} ]})))
  end.

(** The message [textSearch] throws for anything that is neither a
    parameter error nor an error that mentions the API. *)
Definition generic_failure : string :=
  "Places search failed. Please try again later.".

(** A query the validator accepts. *)
Definition query_accepted (request : value) : bool :=
  match get request "query" with
  | VStr q =>
      negb (String.length (JS.trim q) =? 0)%nat && (String.length q <=? 2048)%nat
  | _ => false
  end.

(** A radius the validator accepts: none, a number from 0 to 50000, or
    [NaN], which no JSON text denotes. *)
Definition radius_accepted (request : value) : bool :=
  match get request "radius" with
  | VUndefined => true
  | VNum r => JS.isNaN r || (JS.le (JS.of_Z 0) r && JS.le r (JS.of_Z 50000))
  | _ => false
  end.

(** The number of photos of a formatted place. *)
Definition photo_count (place : value) : nat :=
  match get place "photos" with
  | VArr ps => length ps
  | _ => 0
  end.

(** The places of a search result. *)
Definition results_of (searchResults : value) : list value :=
  match get searchResults "results" with
  | VArr places => places
  | _ => []
  end.

End Search.

(** ** Start-up registration (src/unnamed/part_000, [initStackRegistration]) *)
Module Startup.
Import Registration.






End Startup.

(** ** The registration routes (src/routes/register.ts) *)
Module RegisterRoutes.
Import Config Registration.

(** [s.replace("$", "")]: a string pattern replaces its first occurrence
    only. *)
Fixpoint remove_first_dollar (s : string) : string :=
  match s with
  | EmptyString => EmptyString
  | String c r => if Ascii.eqb c "$" then r else String c (remove_first_dollar r)
  end.

(** [a[i]] on an array of strings: [undefined] past the end. *)
Definition element (a : list string) (i : nat) : value :=
  match nth_error a i with
  | Some x => VStr x
  | None => VUndefined
  end.

(** An entry of [paymentRoutes], with the fields the route reads. *)
Record RouteConfig := {
  price : string;
  route_description : string;
  inputSchema : value;
  outputSchema : value
}.

(** [paymentRoutes] of src/config/x402.ts; the two schemas are the object
    literals of that file, taken as given. *)
Definition paymentRoutes (x402Config : PaymentConfig) (input output : value)
  : list (string * RouteConfig) :=
  [ ("POST /api/places/text-search",
     {| price := "$" ++ priceUsd x402Config;
        route_description :=
          "Search for places, businesses, and points of interest using Google Places API with real-time data and comprehensive location information";
        inputSchema := input;
        outputSchema := output |}) ].

(** The callback of [Object.entries(paymentRoutes).map(...)]. *)
Definition endpoint_of (entry : string * RouteConfig) : value :=
  let parts := JS.split " " (fst entry) in
  VObj {[ "path" := element parts 1;
          "method" := element parts 0;
          "description" := VStr (route_description (snd entry));
          "priceUsd" := VStr (remove_first_dollar (price (snd entry)));
          "inputSchema" := inputSchema (snd entry);
          "outputSchema" := outputSchema (snd entry) ]}.

(** [process.env.FACILITATOR_URL || "http://localhost:3005"]. *)
Definition route_facilitatorUrl (env : environment) : string :=
  env_or (env !! "FACILITATOR_URL") "http://localhost:3005".

(** [process.env.SERVER_URL || `http://localhost:${process.env.PORT || 3000}`]. *)
Definition route_serverUrl (env : environment) : string :=
  env_or (env !! "SERVER_URL") ("http://localhost:" ++ env_or (env !! "PORT") "3000").

Definition registrationPayload (env : environment) (x402Config : PaymentConfig)
                               (input output : value) : value :=
  VObj {[ "url" := VStr (route_serverUrl env);
          "name" := VStr serviceDiscovery_service;
          "description" := VStr serviceDiscovery_description;
          "category" := VStr "api";
          "tags" := VArr (map VStr ["places"; "search"; "google"; "location";
                                    "maps"; "x402"]);
          "walletAddress" := VStr (payTo x402Config);
          "network" := VStr (network x402Config);
          "priceUsd" := VStr (priceUsd x402Config);
          "facilitatorUrl" := VStr (route_facilitatorUrl env);
          "endpoints" :=
            VArr (map endpoint_of (paymentRoutes x402Config input output)) ]}.

(** The reply of the Stack to the route's POST, with the fields the route
    reads: [response.ok], [result.success], [result.error],
    [result.vendor] and [result.mode]. *)
Record StackReply := {
  stack_ok : bool;
  stack_success : bool;
  stack_error : option string;
  stack_vendor : value;
  stack_mode : value
}.

(** [POST /api/register]: the reply to the caller. *)
Definition register_route (env : environment) (call : outcome StackReply)
  : Server.response :=
  match call with
  | Thrown message =>
      {| Server.status := 500;
         Server.body := VObj {[ "success" := VBool false;
                                "error" := VStr message ]} |}
  | Returned r =>
      if negb (stack_ok r) || negb (stack_success r) then
        {| Server.status := 400;
           Server.body :=
             VObj {[ "success" := VBool false;
                     "error" := VStr (or_string (stack_error r)
                                               "Registration failed") ]} |}
      else
        {| Server.status := 200;
           Server.body :=
             VObj {[ "success" := VBool true;
                     "vendor" := stack_vendor r;
                     "mode" := stack_mode r;
                     "facilitatorUrl" := VStr (route_facilitatorUrl env);
                     "serverUrl" := VStr (route_serverUrl env) ]} |}
  end.

(** The reply the registration service sees when the Stack answers [r]. *)
Definition as_register_reply (status : nat) (r : StackReply) : RegisterReply :=
  {| reply_ok := stack_ok r; reply_status := status;
     data_success := stack_success r;
     data_vendor_id := (match get (stack_vendor r) "id" with
                        | VStr i => Some i
                        | _ => None
                        end);
     data_error := stack_error r |}.

(** [GET /api/register/status]: the HTTP status, [registered] and the
    vendor of the reply. *)
Definition status_handler (env : environment) (call : outcome VendorsReply)
  : nat * (bool * option Vendor) :=
  match call with
  | Thrown _ => (500%nat, (false, None))
  | Returned r => (200%nat, status_route (route_serverUrl env) r)
  end.

End RegisterRoutes.

(** ** Vocabulary for trimming and splitting *)
Module Parts.

(** The string does not begin with white space. *)
Definition head_not_ws (s : string) : Prop :=
  match s with
  | EmptyString => True
  | String c _ => JS.is_ws c = false
  end.

(** [f] applied to the first, respectively the last, element of a list. *)
Definition map_head {A} (f : A -> A) (l : list A) : list A :=
  match l with
  | [] => []
  | x :: t => f x :: t
  end.

Fixpoint map_last {A} (f : A -> A) (l : list A) : list A :=
  match l with
  | [] => []
  | x :: t =>
      match t with
      | [] => [f x]
      | _ => x :: map_last f t
      end
  end.

End Parts.

(** ** The facilitator the server hands to the payment middleware
    (src/unnamed/part_001, [getFacilitator]) *)
Module Facilitators.
Import Config.

(** The built-in CDP facilitator of @coinbase/x402, or a facilitator
    addressed by URL. *)
Inductive facilitator_binding :=
| CdpFacilitator
| UrlFacilitator (url : string).

Definition getFacilitator (x402Config : PaymentConfig) : facilitator_binding :=
  if String.eqb (network x402Config) "base" then CdpFacilitator
  else UrlFacilitator (facilitatorUrl x402Config).

End Facilitators.

(** ** Numbers *)
Section NumberFacts.

Lemma SFcompare_swap (x y : spec_float) (c : comparison) :
  SFcompare x y = Some c -> SFcompare y x = Some (CompOpp c).
Proof.
  destruct x as [sx|sx| |sx mx ex], y as [sy|sy| |sy my ey]; simpl;
    try discriminate;
    try (destruct sx; intros [= <-]; reflexivity);
    try (destruct sy; intros [= <-]; reflexivity);
    try (intros [= <-]; reflexivity).
  - destruct sx, sy; intros [= <-]; reflexivity.
  - intros [= <-]. f_equal.
    destruct sx, sy; try reflexivity;
      rewrite (Z.compare_antisym ex ey);
      destruct (ex ?= ey) eqn:E; simpl; try reflexivity;
      change (Pos.compare_cont Eq my mx) with (Pos.compare my mx);
      change (Pos.compare_cont Eq mx my) with (Pos.compare mx my);
      rewrite (Pos.compare_antisym mx my);
      destruct (mx ?= my)%positive; reflexivity.
Qed.

Lemma le_not_gt (x y : JS.number) : JS.le x y = true -> JS.gt x y = false.
Proof.
  unfold JS.le, JS.gt, SFleb, SFltb.
  destruct (SFcompare x y) as [c|] eqn:E; [|discriminate].
  rewrite (SFcompare_swap _ _ _ E).
  destruct c; simpl; congruence.
Qed.

Lemma le_not_lt (x y : JS.number) : JS.le x y = true -> JS.lt y x = false.
Proof. exact (le_not_gt x y). Qed.

Lemma le_not_NaN_r (x y : JS.number) : JS.le x y = true -> JS.isNaN y = false.
Proof. destruct x, y; simpl; try reflexivity; discriminate. Qed.

End NumberFacts.

(** ** The request validator *)
Section ValidatorProperties.
Import PlacesService Shapes.

Lemma validate_query_app request errors :
  validate_query request errors = (errors ++ validate_query request [])%list.
Proof.
  unfold validate_query, push.
  repeat case_match; simpl; rewrite ?app_nil_r; reflexivity.
Qed.

Lemma validate_location_app request errors :
  validate_location request errors = (errors ++ validate_location request [])%list.
Proof.
  unfold validate_location, push.
  repeat case_match; simpl; rewrite ?app_nil_r; reflexivity.
Qed.

Lemma validate_radius_app request errors :
  validate_radius request errors = (errors ++ validate_radius request [])%list.
Proof.
  unfold validate_radius, push.
  repeat case_match; simpl; rewrite ?app_nil_r; reflexivity.
Qed.

(** On an object the three groups of checks contribute independently,
    in the order query, location, radius. *)
Lemma validateRequest_object (o : gmap string value) :
  validateRequest (VObj o) =
    (validate_query (VObj o) [] ++ validate_location (VObj o) []
       ++ validate_radius (VObj o) [])%list.
Proof.
  unfold validateRequest. simpl.
  rewrite validate_radius_app, validate_location_app. by rewrite <- app_assoc.
Qed.

Lemma coordinates_length loc :
  length (coordinates loc) = length (JS.split "," loc).
Proof. unfold coordinates. apply length_map. Qed.

Lemma validate_location_valid request loc :
  get request "location" = VStr loc ->
  two_valid_coordinates loc = true ->
  validate_location request [] = [].
Proof.
  intros Hget Hvalid. unfold validate_location. rewrite Hget.
  unfold two_valid_coordinates in Hvalid.
  pose proof (coordinates_length loc) as Hlen.
  fold (coordinates loc).
  destruct (coordinates loc) as [|lat [|lng [|]]]; try discriminate.
  simpl in Hlen. rewrite <- Hlen. cbn [length Nat.eqb negb nth].
  unfold valid_latitude, valid_longitude in Hvalid.
  apply andb_prop in Hvalid as [Hlat Hlng].
  apply andb_prop in Hlat as [Hlat1 Hlat2].
  apply andb_prop in Hlng as [Hlng1 Hlng2].
  rewrite (le_not_NaN_r _ _ Hlat1), (le_not_NaN_r _ _ Hlng1).
  rewrite (le_not_lt _ _ Hlat1), (le_not_gt _ _ Hlat2).
  rewrite (le_not_lt _ _ Hlng1), (le_not_gt _ _ Hlng2).
  reflexivity.
Qed.

Lemma validate_location_part_count request loc :
  get request "location" = VStr loc ->
  wrong_part_count loc = true ->
  validate_location request [] = [msg_location_format].
Proof.
  intros Hget Hcount. unfold validate_location. rewrite Hget.
  unfold wrong_part_count in Hcount. rewrite Hcount. reflexivity.
Qed.

Lemma validate_location_latitude request loc :
  get request "location" = VStr loc ->
  latitude_out_of_range loc = true ->
  validate_location request [] = [msg_latitude].
Proof.
  intros Hget Hout. unfold validate_location. rewrite Hget.
  unfold latitude_out_of_range in Hout.
  pose proof (coordinates_length loc) as Hlen.
  fold (coordinates loc).
  destruct (coordinates loc) as [|lat [|lng [|]]]; try discriminate.
  simpl in Hlen. rewrite <- Hlen. cbn [length Nat.eqb negb nth].
  apply andb_prop in Hout as [Hnum Hrange].
  apply andb_prop in Hnum as [Hlat Hlng].
  apply negb_true_iff in Hlat, Hlng.
  rewrite Hlat, Hlng, Hrange. reflexivity.
Qed.

(** C9. For a request object whose [location] is a string,
    [validateRequest] adds nothing for it when the string holds two
    coordinates in range, adds exactly the part-count message when the
    string does not split into two parts, and adds exactly the latitude
    message when it holds two numbers with the first outside [-90, 90];
    the two messages are different and each names what it is about. *)
Theorem validateRequest_location_shapes (o : gmap string value) (loc : string) :
  o !! "location" = Some (VStr loc) ->
  let around (errs : list string) : list string :=
    (validate_query (VObj o) [] ++ errs ++ validate_radius (VObj o) [])%list in
  (two_valid_coordinates loc = true -> validateRequest (VObj o) = around [])
  /\ (wrong_part_count loc = true ->
      validateRequest (VObj o) = around [msg_location_format])
  /\ (latitude_out_of_range loc = true ->
      validateRequest (VObj o) = around [msg_latitude])
  /\ msg_location_format <> msg_latitude
  /\ JS.includes "'location'" msg_location_format = true
  /\ JS.includes "Latitude" msg_latitude = true.
Proof.
  intros Hloc around.
  assert (Hget : get (VObj o) "location" = VStr loc) by (simpl; by rewrite Hloc).
  subst around. simpl. rewrite validateRequest_object.
  repeat split.
  - intros H. by rewrite (validate_location_valid _ _ Hget H).
  - intros H. by rewrite (validate_location_part_count _ _ Hget H).
  - intros H. by rewrite (validate_location_latitude _ _ Hget H).
  - discriminate.
Qed.

(** The three location strings of the specification, on a request with
    a valid query: accepted, rejected for its part count, rejected for
    its latitude. *)
Lemma validateRequest_location_examples :
  validateRequest (VObj (location_request "37.7749,-122.4194")) = []
  /\ validateRequest (VObj (location_request "37.7749")) = [msg_location_format]
  /\ validateRequest (VObj (location_request "200,-122.4194")) = [msg_latitude].
Proof.
  split; [|split].
  - destruct (validateRequest_location_shapes
                (location_request "37.7749,-122.4194") "37.7749,-122.4194"
                eq_refl) as (H & _).
    rewrite H; vm_compute; reflexivity.
  - destruct (validateRequest_location_shapes
                (location_request "37.7749") "37.7749" eq_refl) as (_ & H & _).
    rewrite H; vm_compute; reflexivity.
  - destruct (validateRequest_location_shapes
                (location_request "200,-122.4194") "200,-122.4194"
                eq_refl) as (_ & _ & H & _).
    rewrite H; vm_compute; reflexivity.
Defined.

Lemma validate_query_accepts request q :
  get request "query" = VStr q ->
  JS.trim q <> "" ->
  (String.length q <= 2048)%nat ->
  validate_query request [] = [].
Proof.
  intros Hget Htrim Hlen. unfold validate_query. rewrite Hget.
  assert (Hq : truthy (VStr q) = true).
  { destruct q; [|reflexivity]. by destruct Htrim. }
  rewrite Hq. cbn [negb].
  destruct (JS.trim q) eqn:E; [by destruct Htrim|]. cbn [String.length Nat.eqb].
  destruct (Nat.ltb_spec 2048 (String.length q)) as [Hgt|_]; [lia|reflexivity].
Qed.

Lemma validate_location_absent_or_valid request :
  location_absent_or_valid request = true ->
  validate_location request [] = [].
Proof.
  unfold location_absent_or_valid. intros H.
  destruct (get request "location") eqn:Hget; try discriminate.
  - unfold validate_location. by rewrite Hget.
  - by apply (validate_location_valid request s).
Qed.

Lemma validate_radius_absent_or_valid request :
  radius_absent_or_valid request = true ->
  validate_radius request [] = [].
Proof.
  unfold radius_absent_or_valid, validate_radius. intros H.
  destruct (get request "radius") eqn:Hget; try discriminate; [reflexivity|].
  apply andb_prop in H as [H0 H1].
  by rewrite (le_not_lt _ _ H0), (le_not_gt _ _ H1).
Qed.

(** C10. A request object whose [query] is a string that is not empty
    after trimming and has at most 2048 code units, and whose [location]
    and [radius] are absent or valid, gets the empty error list; when the
    query has 513 code units or more, that is a query the published input
    schema (maxLength 512) does not admit. *)
Theorem validateRequest_accepts_query_up_to_2048
    (o : gmap string value) (q : string) :
  o !! "query" = Some (VStr q) ->
  JS.trim q <> "" ->
  (String.length q <= 2048)%nat ->
  location_absent_or_valid (VObj o) = true ->
  radius_absent_or_valid (VObj o) = true ->
  validateRequest (VObj o) = []
  /\ ((513 <= String.length q)%nat -> within_published_schema q = false).
Proof.
  intros Hq Htrim Hlen Hloc Hrad. split.
  - rewrite validateRequest_object.
    rewrite (validate_query_accepts (VObj o) q), validate_location_absent_or_valid,
      validate_radius_absent_or_valid; try done.
    simpl. by rewrite Hq.
  - intros H513. unfold within_published_schema, Config.inputSchema_query_maxLength.
    apply andb_false_iff. right. apply Nat.leb_gt. lia.
Qed.

(** Queries of 513 and of 2048 letters are accepted and are longer than
    the published schema allows. *)
Lemma validateRequest_accepts_long_queries :
  (validateRequest (VObj {[ "query" := VStr (long_query 513) ]}) = []
   /\ within_published_schema (long_query 513) = false)
  /\ (validateRequest (VObj {[ "query" := VStr (long_query 2048) ]}) = []
      /\ within_published_schema (long_query 2048) = false).
Proof.
  split.
  - destruct (validateRequest_accepts_query_up_to_2048
                {[ "query" := VStr (long_query 513) ]} (long_query 513))
      as [H1 H2]; try (vm_compute; reflexivity); try (vm_compute; lia).
    + vm_compute. discriminate.
    + split; [exact H1 | apply H2; vm_compute; lia].
  - destruct (validateRequest_accepts_query_up_to_2048
                {[ "query" := VStr (long_query 2048) ]} (long_query 2048))
      as [H1 H2]; try (vm_compute; reflexivity); try (vm_compute; lia).
    + vm_compute. discriminate.
    + split; [exact H1 | apply H2; vm_compute; lia].
Defined.

End ValidatorProperties.

(** ** The priced route *)
Section RouteProperties.
Import PlacesService Server.

Lemma bind_returned {A B} (m : outcome A) (k : A -> outcome B) (b : B) :
  bind m k = Returned b -> exists a, m = Returned a /\ k a = Returned b.
Proof. destruct m as [a|e]; simpl; [eauto|discriminate]. Qed.

(** What [textSearch] returns is an object with exactly the fields
    [status], [results] and [metadata], the last one holding [query],
    the constant cost and the time of the search. *)
Lemma textSearch_returns env reply now request v :
  textSearch env reply now request = Returned v ->
  exists st places,
    v = VObj {[ "status" := VStr st;
                "results" := VArr places;
                "metadata" := VObj {[ "query" := VStr (query request);
                                      "cost" := VStr "$0.01";
                                      "timestamp" := VStr now ]} ]}.
Proof.
  unfold textSearch. destruct (textSearch_try env reply now request) eqn:E;
    [|discriminate].
  intros [= <-]. unfold textSearch_try in E.
  repeat (case_match; try discriminate);
    (apply bind_returned in E as (data & _ & E);
     case_match; try discriminate;
     apply bind_returned in E as (places & _ & [= <-]); eauto).
Qed.

Lemma get_with_metadata_other (o : gmap string value) m k :
  k <> "metadata" -> get (with_metadata (VObj o) m) k = get (VObj o) k.
Proof. intros Hk. simpl. by rewrite lookup_insert_ne. Qed.

Lemma get_with_metadata (v m : value) :
  get (with_metadata v m) "metadata" = m.
Proof.
  destruct v; simpl; try by rewrite lookup_singleton_eq.
  by rewrite lookup_insert_eq.
Qed.

(** C1, amended. When a request admitted to the priced route passes
    validation and the search returns, the reply has status 200, every
    field of the search result other than [metadata] is in the body
    unchanged, and the body's [metadata] is the payment metadata of the
    route: it takes the place of the [metadata] object of the search
    result, so [query] is no longer in it, and it carries every field the
    published output schema requires there. *)
Theorem text_search_reply_keeps_all_but_metadata
    (x402Config : Config.PaymentConfig) (development : bool)
    (env : environment) (reply : fetched) (now_search now_reply : string)
    (req_body searchResults : value) :
  validateRequest req_body = [] ->
  bind (search_request req_body) (textSearch env reply now_search)
    = Returned searchResults ->
  let r := text_search_route x402Config development env reply
                             now_search now_reply req_body in
  status r = 200%nat
  /\ (forall k, k <> "metadata" -> get (body r) k = get searchResults k)
  /\ get (body r) "metadata" = payment_metadata x402Config now_reply
  /\ get (get (body r) "metadata") "query" = VUndefined
  /\ (forall k, In k Config.outputSchema_metadata_required ->
                get (get (body r) "metadata") k <> VUndefined).
Proof.
  intros Hvalid Hsearch r. subst r. unfold text_search_route.
  rewrite Hvalid, Hsearch. cbn [length Nat.ltb Nat.leb status body].
  apply bind_returned in Hsearch as (request & _ & Hsearch).
  apply textSearch_returns in Hsearch as (st & places & ->).
  split; [reflexivity|]. split; [|split; [|split]].
  - intros k Hk. by apply get_with_metadata_other.
  - apply get_with_metadata.
  - rewrite get_with_metadata. reflexivity.
  - intros k Hk. rewrite get_with_metadata.
    simpl in Hk. destruct Hk as [<-|[<-|[<-|[<-|[]]]]]; vm_compute; discriminate.
Qed.

Lemma example_search : Examples.search = Returned Examples.searchResults.
Proof. vm_compute. reflexivity. Qed.

Lemma text_search_reply_example :
  Server.status Examples.route_reply = 200%nat
  /\ get (body Examples.route_reply) "status" = VStr "OK"
  /\ get (body Examples.route_reply) "metadata"
     = payment_metadata Examples.x402Config Examples.reply_time.
Proof.
  destruct (text_search_reply_keeps_all_but_metadata
              Examples.x402Config false Examples.env Examples.reply
              Examples.search_time Examples.reply_time Examples.req_body
              Examples.searchResults)
    as (H200 & Hother & Hmeta & _).
  - vm_compute. reflexivity.
  - exact example_search.
  - split; [exact H200|]. split; [|exact Hmeta].
    unfold Examples.route_reply. rewrite (Hother "status"); [|discriminate].
    vm_compute. reflexivity.
Defined.

(** C1 as stated does not hold: for the example request the search
    result carries a [metadata] object with the query, the cost "$0.01"
    and the search time, and the body of the 200 reply carries a
    different [metadata] object, without the query and with another cost
    and time. *)
Lemma text_search_reply_replaces_search_metadata :
  Examples.search = Returned Examples.searchResults
  /\ Server.status Examples.route_reply = 200%nat
  /\ get (body Examples.route_reply) "metadata"
       <> get Examples.searchResults "metadata"
  /\ get (get Examples.searchResults "metadata") "query" = VStr "coffee shops"
  /\ get (get (body Examples.route_reply) "metadata") "query" = VUndefined
  /\ get (get Examples.searchResults "metadata") "cost" = VStr "$0.01"
  /\ get (get (body Examples.route_reply) "metadata") "cost" = VStr "$0.05".
Proof.
  split; [exact example_search|]. split; [vm_compute; reflexivity|].
  split; [|repeat split; vm_compute; reflexivity].
  intros H. apply (f_equal (fun v => get v "query")) in H.
  vm_compute in H. discriminate.
Qed.

End RouteProperties.

(** ** Configuration loading *)
Section ConfigProperties.
Import Config.

Variable env : environment.
Hypothesis api_key : env_truthy (env !! "GOOGLE_PLACES_API_KEY") = true.
Hypothesis wallet : env_truthy (env !! "PAYMENT_WALLET_ADDRESS") = true.

Lemma x402_module_network :
  x402_module env =
    if includes_network (env_or (env !! "NETWORK") "base")
    then Loaded {| payTo := default "" (env !! "PAYMENT_WALLET_ADDRESS");
                   facilitatorUrl :=
                     env_or (env !! "FACILITATOR_URL") "https://x402.org/facilitator";
                   network := env_or (env !! "NETWORK") "base";
                   priceUsd := env_or (env !! "PAYMENT_PRICE_USD") "0.01" |}
    else Exit 1.
Proof.
  unfold x402_module, requiredEnvVars, missing_keys.
  cbn [List.filter fst snd]. rewrite api_key, wallet. cbn [negb].
  assert (Hor : forall v d, env_truthy (Some (env_or v d)) = true \/ d = "").
  { intros [[|c r]|] [|c' r']; simpl; auto. }
  destruct (Hor (env !! "FACILITATOR_URL") "https://x402.org/facilitator")
    as [->|]; [|discriminate].
  destruct (Hor (env !! "NETWORK") "base") as [->|]; [|discriminate].
  destruct (Hor (env !! "PAYMENT_PRICE_USD") "0.01") as [->|]; [|discriminate].
  cbn [negb map length Nat.ltb Nat.leb].
  by destruct (includes_network _).
Qed.

(** src/config/x402.ts stops the process for a network outside the
    list, and loads one configuration carrying the network otherwise. *)
Lemma x402_module_rejects_unsupported_network :
  includes_network (env_or (env !! "NETWORK") "base") = false ->
  x402_module env = Exit 1.
Proof. intros H. by rewrite x402_module_network, H. Qed.

Lemma x402_module_loads_supported_network :
  includes_network (env_or (env !! "NETWORK") "base") = true ->
  exists c, x402_module env = Loaded c
            /\ network c = env_or (env !! "NETWORK") "base".
Proof. intros H. rewrite x402_module_network, H. eauto. Qed.

Hypothesis facilitator : env_truthy (env !! "FACILITATOR_URL") = true.

Lemma getConfig_network :
  exists c, getConfig env = Some c /\ network c = env_or (env !! "NETWORK") "base".
Proof.
  unfold getConfig, missing_keys. cbn [List.filter fst snd].
  rewrite api_key, wallet, facilitator. cbn [negb andb].
  replace (String.eqb "NETWORK" "NETWORK") with true by reflexivity.
  replace (String.eqb "PAYMENT_PRICE_USD" "PAYMENT_PRICE_USD") with true
    by reflexivity.
  rewrite !andb_false_r. cbn [negb andb map length Nat.ltb Nat.leb]. eauto.
Qed.

(** [getConfig] returns whatever [NETWORK] holds, and src/config/x402.ts
    ends the process on the same environment when that is not one of
    [validNetworks]. *)
Lemma getConfig_ignores_network (n : string) :
  env !! "NETWORK" = Some n ->
  n <> "" ->
  includes_network n = false ->
  x402_module env = Exit 1
  /\ exists c, getConfig env = Some c /\ network c = n.
Proof.
  intros Hn Hne Hout.
  assert (Hor : env_or (env !! "NETWORK") "base" = n).
  { rewrite Hn. destruct n; [by destruct Hne | reflexivity]. }
  split.
  - apply x402_module_rejects_unsupported_network. by rewrite Hor.
  - destruct getConfig_network as (c & Hc & Hnet). exists c. by rewrite <- Hor.
Qed.

End ConfigProperties.

Section ConfigExamples.
Import Config.

(** [getConfig] of lib/custom/config/api-config.ts taken on its own: with
    the required variables set and [NETWORK=ethereum], which is not one of
    [validNetworks], it returns a configuration that carries that network,
    as it reports missing variables only; src/config/x402.ts ends the
    process with exit code 1 on the same environment. *)
Lemma getConfig_accepts_unsupported_network :
  includes_network "ethereum" = false
  /\ x402_module Examples.env_ethereum = Exit 1
  /\ getConfig Examples.env_ethereum
     = Some {| payTo := "0xabc"; facilitatorUrl := "https://stack.perkos.xyz";
               network := "ethereum"; priceUsd := "0.01" |}.
Proof. repeat split; vm_compute; reflexivity. Qed.

(** The same holds for every unsupported name, here through the general
    statement. *)
Lemma getConfig_ignores_ethereum :
  x402_module Examples.env_ethereum = Exit 1
  /\ exists c, getConfig Examples.env_ethereum = Some c /\ network c = "ethereum".
Proof.
  apply (getConfig_ignores_network Examples.env_ethereum);
    try (vm_compute; reflexivity).
  discriminate.
Qed.

(** The Express server imports src/config/x402.ts before it calls
    [getConfig], so its own start-up stops on the same input. *)
Lemma server_start_ethereum : Server.start Examples.env_ethereum = Exit 1.
Proof. vm_compute. reflexivity. Qed.

End ConfigExamples.

(** ** The registration service *)
Section RegistrationProperties.
Import Registration Runs.

Variable registry : nat -> registry_call.

Lemma says_already_registered_not_fails call :
  says_already_registered call = true -> fails call = false.
Proof.
  unfold says_already_registered, fails.
  destruct (attemptRegistration call) as [r|]; [|discriminate].
  intros [_ ->]%andb_prop. by rewrite andb_false_r.
Qed.

(** One iteration of the loop, by what the attempt does. *)
Lemma register_loop_step s left attempt :
  register_loop registry s (S left) attempt =
    match attemptRegistration (registry attempt) with
    | Returned r =>
        if success r then
          {| result := r; after := set_registered s;
             trace := [RegisterCall attempt] |}
        else if error_says_already_registered r then
          {| result := already_registered_result; after := set_registered s;
             trace := [RegisterCall attempt] |}
        else
          let rest := register_loop registry s left (S attempt) in
          {| result := result rest; after := after rest;
             trace := RegisterCall attempt
                        :: (wait_before_retry (config s) attempt ++ trace rest)%list |}
    | Thrown _ =>
        let rest := register_loop registry s left (S attempt) in
        {| result := result rest; after := after rest;
           trace := RegisterCall attempt
                      :: (wait_before_retry (config s) attempt ++ trace rest)%list |}
    end.
Proof. reflexivity. Qed.

Lemma register_loop_fails s left attempt :
  fails (registry attempt) = true ->
  register_loop registry s (S left) attempt =
    let rest := register_loop registry s left (S attempt) in
    {| result := result rest; after := after rest;
       trace := RegisterCall attempt
                  :: (wait_before_retry (config s) attempt ++ trace rest)%list |}.
Proof.
  intros Hf. rewrite register_loop_step. unfold fails in Hf.
  destruct (attemptRegistration (registry attempt)) as [r|]; [|reflexivity].
  apply andb_prop in Hf as [Hs He].
  apply negb_true_iff in Hs, He. by rewrite Hs, He.
Qed.

Lemma wait_not_call c attempt k :
  ~ In (RegisterCall k) (wait_before_retry c attempt).
Proof.
  unfold wait_before_retry. destruct (_ <? _)%nat; simpl; [|tauto].
  intros [Hd|[]]. discriminate.
Qed.

(** An attempt whose reply says "already registered" ends the loop it
    occurs in. *)
Lemma register_loop_already_registered s k left attempt :
  says_already_registered (registry k) = true ->
  In (RegisterCall k) (trace (register_loop registry s left attempt)) ->
  let r := register_loop registry s left attempt in
  result r = already_registered_result
  /\ after r = set_registered s
  /\ exists earlier, trace r = (earlier ++ [RegisterCall k])%list.
Proof.
  intros Hk. revert attempt.
  induction left as [|left IH]; intros attempt Hin; [destruct Hin|].
  cbn zeta. rewrite register_loop_step in Hin |- *.
  pose proof Hk as Hk'. unfold says_already_registered in Hk'.
  destruct (attemptRegistration (registry attempt)) as [r|e] eqn:Hattempt.
  - destruct (success r) eqn:Hs.
    + destruct Hin as [[= ->]|[]]. rewrite Hattempt, Hs in Hk'. discriminate.
    + destruct (error_says_already_registered r) eqn:He.
      * destruct Hin as [[= ->]|[]]. repeat split. by exists [].
      * cbn zeta in Hin |- *. cbn [trace result after] in Hin |- *.
        destruct Hin as [[= ->]|Hin].
        { rewrite Hattempt, Hs, He in Hk'. discriminate. }
        apply in_app_or in Hin as [Hin|Hin]; [by apply wait_not_call in Hin|].
        destruct (IH _ Hin) as (Hr & Ha & earlier & Ht).
        repeat split; try done.
        exists (RegisterCall attempt :: wait_before_retry (config s) attempt ++ earlier)%list.
        rewrite Ht. simpl. by rewrite app_assoc.
  - cbn zeta in Hin |- *. cbn [trace result after] in Hin |- *.
    destruct Hin as [[= ->]|Hin].
    { rewrite Hattempt in Hk'. discriminate. }
    apply in_app_or in Hin as [Hin|Hin]; [by apply wait_not_call in Hin|].
    destruct (IH _ Hin) as (Hr & Ha & earlier & Ht).
    repeat split; try done.
    exists (RegisterCall attempt :: wait_before_retry (config s) attempt ++ earlier)%list.
    rewrite Ht. simpl. by rewrite app_assoc.
Qed.

(** C4. In every run of [register] that makes an attempt whose registry
    reply indicates "already registered", that attempt is the last thing
    the run does (no later attempt, no wait), the result is the success
    result with [alreadyRegistered: true] and no error, and the service
    is marked registered. *)
Theorem register_already_registered_is_success (s : service) (k : nat) :
  says_already_registered (registry k) = true ->
  In (RegisterCall k) (trace (register registry s)) ->
  let r := register registry s in
  result r = {| success := true; vendorId := None; error := None;
                alreadyRegistered := Some true |}
  /\ registered (after r) = true
  /\ exists earlier, trace r = (earlier ++ [RegisterCall k])%list.
Proof.
  intros Hk Hin. cbn zeta. unfold register in *.
  destruct (registered s); [destruct Hin|].
  destruct (register_loop_already_registered s k _ _ Hk Hin) as (Hr & Ha & Ht).
  rewrite Ha. auto.
Qed.

End RegistrationProperties.

Section RegistrationExamples.
Import Registration Runs.

(** The stub of the specification: the first reply already says
    "already registered", and the run is that single attempt; and a stub
    that says so at the second attempt, where the run stops. *)
Lemma register_already_registered_examples :
  (let r := register always_already_registered (default_service "http://host:3000") in
   result r = already_registered_result /\ registered (after r) = true
   /\ trace r = [RegisterCall 1%nat])
  /\ (let r := register already_registered_at_second
                        (default_service "http://host:3000") in
      result r = already_registered_result /\ registered (after r) = true
      /\ trace r = [RegisterCall 1%nat; Delay 5000; RegisterCall 2%nat]).
Proof.
  split.
  - destruct (register_already_registered_is_success always_already_registered
                (default_service "http://host:3000") 1%nat)
      as (Hr & Ha & _); [reflexivity | vm_compute; auto |].
    cbn zeta. split; [exact Hr|]. split; [exact Ha|]. reflexivity.
  - destruct (register_already_registered_is_success already_registered_at_second
                (default_service "http://host:3000") 2%nat)
      as (Hr & Ha & _); [reflexivity | vm_compute; auto |].
    cbn zeta. split; [exact Hr|]. split; [exact Ha|]. reflexivity.
Defined.

End RegistrationExamples.

(** ** The retry loop *)
Section RetryProperties.
Import Registration Runs.

Variable registry : nat -> registry_call.

Lemma register_loop_all_fail s left attempt :
  (attempt + left = S (cfg_retryAttempts (config s)))%nat ->
  (forall n, (attempt <= n < attempt + left)%nat -> fails (registry n) = true) ->
  register_loop registry s left attempt =
    {| result := failure_result (config s);
       after := s;
       trace := attempts_from (cfg_retryDelayMs (config s)) left attempt |}.
Proof.
  revert attempt. induction left as [|left IH]; intros attempt Hsum Hfail;
    [reflexivity|].
  rewrite register_loop_fails by (apply Hfail; lia).
  rewrite IH by (try lia; intros n Hn; apply Hfail; lia).
  cbn zeta. cbn [result after trace]. f_equal.
  unfold wait_before_retry. cbn [attempts_from].
  destruct left as [|left'].
  - destruct (Nat.ltb_spec attempt (cfg_retryAttempts (config s))); [lia|].
    reflexivity.
  - destruct (Nat.ltb_spec attempt (cfg_retryAttempts (config s))); [|lia].
    reflexivity.
Qed.


Lemma count_calls_attempts ms left attempt :
  count_calls (attempts_from ms left attempt) = left.
Proof.
  revert attempt. induction left as [|[|left] IH]; intros attempt; try reflexivity.
  change (S (count_calls (attempts_from ms (S left) (S attempt))) = S (S left)).
  by rewrite IH.
Qed.

Lemma count_delays_attempts ms left attempt :
  count_delays (attempts_from ms left attempt) = (left - 1)%nat.
Proof.
  revert attempt. induction left as [|[|left] IH]; intros attempt; try reflexivity.
  change (S (count_delays (attempts_from ms (S left) (S attempt))) = (S (S left) - 1)%nat).
  rewrite IH. lia.
Qed.



End RetryProperties.

Section RetryExamples.
Import Registration Runs.


End RetryExamples.

(** ** The registered flag and the vendor match *)
Section FlagProperties.
Import Registration Runs.

Lemma register_loop_keeps_config registry s left attempt :
  config (after (register_loop registry s left attempt)) = config s.
Proof.
  revert attempt. induction left as [|left IH]; intros attempt; [reflexivity|].
  rewrite register_loop_step.
  repeat case_match; cbn zeta; cbn [after]; try reflexivity; apply IH.
Qed.

(** The loop reports success only where it has set the flag. *)
Lemma register_loop_success_sets_flag registry s left attempt :
  success (result (register_loop registry s left attempt)) = true ->
  registered (after (register_loop registry s left attempt)) = true.
Proof.
  revert attempt. induction left as [|left IH]; intros attempt; [discriminate|].
  rewrite register_loop_step.
  repeat case_match; cbn zeta; cbn [after result]; try reflexivity; apply IH.
Qed.

Lemma register_short_circuit registry s :
  registered s = true ->
  register registry s =
    {| result := already_registered_result; after := s; trace := [] |}.
Proof. intros H. unfold register. by rewrite H. Qed.

(** No operation clears the flag. *)
Lemma after_operation_keeps_flag s op :
  registered s = true -> registered (after_operation s op) = true.
Proof.
  intros H. destruct op as [registry|call|health]; simpl.
  - by rewrite register_short_circuit.
  - unfold verifyRegistration. repeat case_match; done.
  - done.
Qed.

Lemma after_operations_keep_flag s ops :
  registered s = true -> registered (after_operations s ops) = true.
Proof.
  revert s. induction ops as [|op ops IH]; intros s H; [done|].
  apply IH. by apply after_operation_keeps_flag.
Qed.

(** An operation that reports the vendor as registered sets the flag. *)
Lemma reports_registered_sets_flag s op :
  reports_registered s op = true -> registered (after_operation s op) = true.
Proof.
  destruct op as [registry|call|health]; simpl; [| |discriminate].
  - unfold register. destruct (registered s) eqn:Hs; [done|].
    apply register_loop_success_sets_flag.
  - unfold verifyRegistration. repeat case_match; simpl; done.
Qed.

(** C6. Once an operation on the service reports the vendor as registered
    (a [register] that succeeds or is told "already registered", or a
    [verifyRegistration] that finds the vendor), the flag is set, it is
    still set after any further operations, and a later [register]
    returns the success result with [alreadyRegistered: true] at once,
    without a registry call or a wait and without changing the service. *)
Theorem registered_flag_is_sticky
    (s : service) (op : operation) (ops : list operation)
    (registry : nat -> registry_call) :
  reports_registered s op = true ->
  let s' := after_operations (after_operation s op) ops in
  registered (after_operation s op) = true
  /\ registered s' = true
  /\ result (register registry s')
     = {| success := true; vendorId := None; error := None;
          alreadyRegistered := Some true |}
  /\ trace (register registry s') = []
  /\ after (register registry s') = s'.
Proof.
  intros Hop. cbn zeta.
  pose proof (reports_registered_sets_flag _ _ Hop) as Hset.
  pose proof (after_operations_keep_flag _ ops Hset) as Hkept.
  rewrite (register_short_circuit _ _ Hkept). auto.
Qed.

End FlagProperties.

Section FlagExamples.
Import Registration Runs.

(** A verification that finds the vendor, then a health probe, a failed
    verification and a manual [register] against a registry that would
    time out: the flag stays set and [register] makes no call. *)
Lemma registered_flag_example :
  let s := default_service "http://host:3000" in
  let found := CallVerify (Returned (vendors_reply
                 [ {| id := "v1"; url := "http://host:3000/" |} ])) in
  let later := [CallHealth None; CallVerify (Thrown "fetch failed");
                CallRegister always_times_out] in
  let s' := after_operations (after_operation s found) later in
  registered s' = true
  /\ result (register always_times_out s') = already_registered_result
  /\ trace (register always_times_out s') = [].
Proof.
  cbn zeta.
  destruct (registered_flag_is_sticky (default_service "http://host:3000")
              (CallVerify (Returned (vendors_reply
                 [ {| id := "v1"; url := "http://host:3000/" |} ])))
              [CallHealth None; CallVerify (Thrown "fetch failed");
               CallRegister always_times_out]
              always_times_out)
    as (_ & Hflag & Hr & Ht & _); [reflexivity|].
  auto.
Defined.

End FlagExamples.

Section VendorMatchProperties.
Import Registration Runs.

Lemma replace_trailing_slash_added (base : string) :
  JS.replace_trailing_slash (base ++ "/") = base.
Proof.
  induction base as [|c r IH]; [reflexivity|].
  destruct r as [|c' r']; [reflexivity|].
  change (String c (JS.replace_trailing_slash (String c' r' ++ "/"))
          = String c (String c' r')).
  by rewrite IH.
Qed.

Lemma replace_trailing_slash_none (base : string) :
  ends_with_slash base = false -> JS.replace_trailing_slash base = base.
Proof.
  induction base as [|c r IH]; [reflexivity|].
  cbn [ends_with_slash JS.replace_trailing_slash].
  destruct r as [|c' r']; [by intros ->|].
  intros H. by rewrite IH.
Qed.

(** The predicate of [find] holds for [url] against [url + "/"] and the
    other way round, as long as [url] itself does not end in a slash. *)
Lemma is_our_vendor_trailing_slash (self base : string) (v : Vendor) :
  ends_with_slash base = false ->
  (url v = base /\ self = base ++ "/") \/ (url v = base ++ "/" /\ self = base) ->
  is_our_vendor self v = true.
Proof.
  intros Hbase [[Hv Hs]|[Hv Hs]]; unfold is_our_vendor; rewrite Hv, Hs;
    rewrite replace_trailing_slash_added, (replace_trailing_slash_none _ Hbase),
      String.eqb_refl; apply orb_true_r.
Qed.

Lemma find_first {A} (p : A -> bool) (earlier later : list A) (x : A) :
  forallb (fun y => negb (p y)) earlier = true ->
  p x = true ->
  List.find p (earlier ++ x :: later) = Some x.
Proof.
  intros Hearlier Hx. induction earlier as [|y earlier IH]; simpl.
  - by rewrite Hx.
  - simpl in Hearlier. apply andb_prop in Hearlier as [Hy Hearlier].
    apply negb_true_iff in Hy. rewrite Hy. by apply IH.
Qed.

Lemma find_some_match {A} (p : A -> bool) (l : list A) (x : A) :
  In x l -> p x = true -> exists y, List.find p l = Some y.
Proof.
  intros Hin Hx. destruct (List.find p l) as [y|] eqn:E; [eauto|].
  pose proof (find_none p l E x Hin). congruence.
Qed.

(** C7, amended. Let the [url] of a registry entry and the configured
    self-URL be [base] and [base + "/"], in either order, where [base]
    does not itself end in a slash. Then [verifyRegistration] reports
    [registered: true] and sets the flag, and the status route reports
    [registered: true]; the vendor reported is the first entry of the
    list that matches, so it is this entry, with its id, when no entry
    before it matches. *)
Theorem verify_matches_up_to_trailing_slash
    (s : service) (base : string) (earlier later : list Vendor) (v : Vendor) :
  ends_with_slash base = false ->
  (url v = base /\ cfg_selfUrl (config s) = base ++ "/")
  \/ (url v = base ++ "/" /\ cfg_selfUrl (config s) = base) ->
  let self := cfg_selfUrl (config s) in
  let reply := vendors_reply (earlier ++ v :: later) in
  let r := verifyRegistration (Returned reply) s in
  v_registered (result r) = true
  /\ registered (after r) = true
  /\ fst (status_route self reply) = true
  /\ (exists w, find_our_vendor self (earlier ++ v :: later) = Some w
                /\ v_vendorId (result r) = Some (id w)
                /\ snd (status_route self reply) = Some w)
  /\ (forallb (fun w => negb (is_our_vendor self w)) earlier = true ->
      v_vendorId (result r) = Some (id v)
      /\ snd (status_route self reply) = Some v).
Proof.
  intros Hbase Hurl. cbn zeta.
  pose proof (is_our_vendor_trailing_slash _ _ _ Hbase Hurl) as Hv.
  unfold verifyRegistration, status_route, vendors_reply.
  cbn [vendors_ok vendors negb default from_option Datatypes.id].
  assert (Hfirst : forallb (fun w => negb (is_our_vendor (cfg_selfUrl (config s)) w))
                     earlier = true ->
                   find_our_vendor (cfg_selfUrl (config s)) (earlier ++ v :: later)
                   = Some v).
  { intros Hearlier. by apply find_first. }
  destruct (find_some_match (is_our_vendor (cfg_selfUrl (config s)))
              (earlier ++ v :: later) v) as [w Hw]; [|exact Hv|].
  { apply in_or_app. right. by left. }
  fold (find_our_vendor (cfg_selfUrl (config s)) (earlier ++ v :: later)) in Hw.
  rewrite Hw in Hfirst |- *. cbn [result after v_registered v_vendorId fst snd].
  do 3 (split; [reflexivity|]). split.
  - by exists w.
  - intros Hearlier. apply Hfirst in Hearlier as [= ->]. by split.
Qed.

End VendorMatchProperties.

Section VendorMatchExamples.
Import Registration Runs.

(** The example of the specification: the registry lists
    "http://host:3000/" and the service is configured with
    "http://host:3000". *)
Lemma verify_trailing_slash_example :
  let s := default_service "http://host:3000" in
  let v := {| id := "v1"; url := "http://host:3000/" |} in
  result (verifyRegistration (Returned (vendors_reply [v])) s)
    = {| v_registered := true; v_vendorId := Some "v1" |}
  /\ status_route "http://host:3000" (vendors_reply [v]) = (true, Some v).
Proof.
  cbn zeta.
  destruct (verify_matches_up_to_trailing_slash
              (default_service "http://host:3000") "http://host:3000" [] []
              {| id := "v1"; url := "http://host:3000/" |})
    as (Hreg & _ & Hst & _ & Hid); [reflexivity | right; split; reflexivity |].
  destruct (Hid eq_refl) as [Hv Hw]. split; [|reflexivity].
  vm_compute. reflexivity.
Defined.

(** C7 as stated does not hold. An entry "http://host:3000//" differs
    from the self-URL "http://host:3000/" by one trailing slash and is
    not matched; and when the list holds the self-URL itself before the
    entry with the added slash, the id reported is that of the earlier
    entry. *)
Lemma verify_trailing_slash_counterexamples :
  (let s := default_service "http://host:3000/" in
   let v := {| id := "b"; url := "http://host:3000//" |} in
   url v = cfg_selfUrl (config s) ++ "/"
   /\ v_registered (result (verifyRegistration (Returned (vendors_reply [v])) s))
      = false
   /\ fst (status_route (cfg_selfUrl (config s)) (vendors_reply [v])) = false)
  /\ (let s := default_service "http://host:3000" in
      let a := {| id := "a"; url := "http://host:3000" |} in
      let b := {| id := "b"; url := "http://host:3000/" |} in
      url b = cfg_selfUrl (config s) ++ "/"
      /\ v_vendorId (result (verifyRegistration (Returned (vendors_reply [a; b])) s))
         = Some "a"
      /\ id b <> "a").
Proof. cbn zeta. repeat split; try reflexivity. discriminate. Qed.

End VendorMatchExamples.

(** ** The payment protocol, as the specification describes it *)
Section PaymentProperties.
Import PaymentProtocol Prices.

Lemma span_digits_all (ds rest : string) :
  all_digits ds = true ->
  match rest with String c _ => JS.is_digit c = false | EmptyString => True end ->
  JS.span_digits (ds ++ rest) = (ds, rest).
Proof.
  intros Hds Hrest. induction ds as [|c r IH].
  - destruct rest as [|c r]; [reflexivity|]. simpl. by rewrite Hrest.
  - simpl in Hds. apply andb_prop in Hds as [Hc Hr].
    simpl. rewrite Hc, (IH Hr). reflexivity.
Qed.

Lemma span_digits_whole (ds : string) :
  all_digits ds = true -> JS.span_digits ds = (ds, "").
Proof.
  intros Hds. induction ds as [|c r IH]; [reflexivity|].
  simpl in Hds. apply andb_prop in Hds as [Hc Hr].
  simpl. rewrite Hc, (IH Hr). reflexivity.
Qed.

Lemma digits_value_app (acc : Z) (a b : string) :
  JS.digits_value acc (a ++ b) = JS.digits_value (JS.digits_value acc a) b.
Proof. revert acc. induction a as [|c r IH]; intros acc; simpl; [done|apply IH]. Qed.

Lemma digits_value_zeros (acc : Z) (n : nat) :
  JS.digits_value acc (zeros n) = acc * 10 ^ Z.of_nat n.
Proof.
  revert acc. induction n as [|n IH]; intros acc.
  - simpl. lia.
  - cbn [zeros JS.digits_value]. rewrite IH.
    change (Z.of_nat (nat_of_ascii "0")) with 48.
    rewrite Nat2Z.inj_succ, Z.pow_succ_r by lia. lia.
Qed.

Lemma strip_leading_zeros_step (c c' : ascii) (r : string) :
  strip_leading_zeros (String c (String c' r)) =
    if Ascii.eqb c "0" then strip_leading_zeros (String c' r)
    else String c (String c' r).
Proof. reflexivity. Qed.

Lemma digits_value_strip (s : string) :
  JS.digits_value 0 (strip_leading_zeros s) = JS.digits_value 0 s.
Proof.
  induction s as [|c r IH]; [reflexivity|].
  destruct r as [|c' r']; [reflexivity|].
  rewrite strip_leading_zeros_step.
  destruct (Ascii.eqb_spec c "0") as [->|]; [|reflexivity].
  rewrite IH. reflexivity.
Qed.

Lemma all_digits_app (a b : string) :
  all_digits (a ++ b) = all_digits a && all_digits b.
Proof.
  induction a as [|c r IH]; simpl; [done|]. by rewrite IH, andb_assoc.
Qed.

Lemma all_digits_zeros (n : nat) : all_digits (zeros n) = true.
Proof. induction n; simpl; auto. Qed.

Lemma canonical_strip (s : string) :
  all_digits s = true -> s <> "" -> canonical (strip_leading_zeros s) = true.
Proof.
  induction s as [|c r IH]; [done|]. intros Hd _.
  destruct r as [|c' r'].
  - unfold canonical. simpl in *. by rewrite Hd.
  - rewrite strip_leading_zeros_step.
    destruct (Ascii.eqb c "0") eqn:E.
    + apply IH; [|done]. simpl in Hd. by apply andb_prop in Hd as [_ ?].
    + unfold canonical. rewrite Hd, E. reflexivity.
Qed.

(** C8. A price written with integer digits [ip] and at most six
    fraction digits [fp] is converted to a canonical integer string whose
    value is the price times 10^6 exactly: multiplied by
    [10 ^ length fp] it equals the digits of the price multiplied by
    10^6; that string is the [maxAmountRequired] of the requirement built
    for the route. *)
Theorem toMinorUnits_exact (ip fp : string) :
  all_digits ip = true ->
  ip <> "" ->
  all_digits fp = true ->
  (String.length fp <= 6)%nat ->
  exists amount,
    toMinorUnits 6 (decimal_string ip fp) = Some amount
    /\ canonical amount = true
    /\ JS.digits_value 0 amount * 10 ^ Z.of_nat (String.length fp)
       = JS.digits_value 0 (ip ++ fp) * 10 ^ 6
    /\ (forall net pay_to stablecoin path,
          option_map maxAmountRequired
            (build (decimal_string ip fp) net pay_to stablecoin path)
          = Some amount).
Proof.
  intros Hip Hne Hfp Hlen.
  exists (strip_leading_zeros (ip ++ fp ++ zeros (6 - String.length fp))).
  assert (Hvalue :
    JS.digits_value 0 (strip_leading_zeros (ip ++ fp ++ zeros (6 - String.length fp)))
      * 10 ^ Z.of_nat (String.length fp)
    = JS.digits_value 0 (ip ++ fp) * 10 ^ 6).
  { rewrite digits_value_strip, !digits_value_app, digits_value_zeros.
    rewrite <- Z.mul_assoc, <- Z.pow_add_r by lia.
    do 2 f_equal. lia. }
  assert (Hcanon :
    canonical (strip_leading_zeros (ip ++ fp ++ zeros (6 - String.length fp))) = true).
  { apply canonical_strip.
    - by rewrite !all_digits_app, Hip, Hfp, all_digits_zeros.
    - destruct ip; [done|discriminate]. }
  assert (Hconv : toMinorUnits 6 (decimal_string ip fp)
                  = Some (strip_leading_zeros
                            (ip ++ fp ++ zeros (6 - String.length fp)))).
  2:{ split; [exact Hconv|]. split; [exact Hcanon|]. split; [exact Hvalue|].
      intros net pay_to stablecoin path. unfold build. by rewrite Hconv. }
  unfold toMinorUnits, decimal_string.
  destruct fp as [|c r].
  - rewrite (span_digits_whole ip Hip).
    destruct ip; [done|]. reflexivity.
  - rewrite (span_digits_all ip ("." ++ String c r) Hip eq_refl).
    change ("." ++ String c r) with (String "." (String c r)). cbv iota.
    rewrite (span_digits_whole (String c r) Hfp).
    destruct ip; [done|].
    destruct (Nat.leb_spec (String.length (String c r)) 6); [reflexivity|lia].
Qed.

(** C2. On a priced route, a request whose proof header decodes to an
    authorization with a [to] or a [value] other than the route's
    requirement is answered with status 400, not 402, ends in
    [StRejected], and does not reach the protected handler, whatever the
    facilitator would say. *)
Theorem mismatched_proof_is_rejected_with_400
    (decode : string -> option AuthorizationPayload)
    (facilitator : AuthorizationPayload -> PaymentRequirement -> verdict)
    (r : PaymentRequirement) (header : string) (p : AuthorizationPayload) :
  decode header = Some p ->
  to (authorization p) <> payTo r \/ value (authorization p) <> maxAmountRequired r ->
  let answer := handle decode facilitator (Some r) (Some header) in
  http_status answer = Some 400%nat
  /\ http_status answer <> Some 402%nat
  /\ final_state answer = StRejected
  /\ handler_ran answer = false.
Proof.
  intros Hdecode Hmismatch. cbn zeta. unfold handle. rewrite Hdecode.
  assert (Hno : matches_requirement r p = false).
  { unfold matches_requirement.
    destruct Hmismatch as [H|H]; apply String.eqb_neq in H; rewrite H;
      by rewrite ?andb_false_r. }
  rewrite Hno. cbn. repeat split. discriminate.
Qed.

End PaymentProperties.

Section PaymentExamples.
Import PaymentProtocol Prices.

(** The price "0.01" gives "10000" for a stablecoin with 6 decimals. *)
Lemma toMinorUnits_one_cent :
  toMinorUnits 6 "0.01" = Some "10000"
  /\ exists amount, toMinorUnits 6 (decimal_string "0" "01") = Some amount
                    /\ JS.digits_value 0 amount * 10 ^ 2 = 1 * 10 ^ 6.
Proof.
  split; [reflexivity|].
  destruct (toMinorUnits_exact "0" "01") as (amount & H & _ & Hv & _);
    [reflexivity | discriminate | reflexivity | simpl; lia |].
  exists amount. split; [exact H | exact Hv].
Defined.

(** A proof that pays another address than the route asks for. *)
Lemma wrong_payee_is_rejected_with_400 :
  handle (fun _ => Some wrong_payee) (fun _ _ => Approved)
         (Some requirement) (Some "proof")
  = {| http_status := Some 400%nat; final_state := StRejected; handler_ran := false |}.
Proof.
  destruct (mismatched_proof_is_rejected_with_400
              (fun _ => Some wrong_payee) (fun _ _ => Approved)
              requirement "proof" wrong_payee)
    as (H400 & _ & Hstate & Hran); [reflexivity | left; discriminate |].
  reflexivity.
Defined.

End PaymentExamples.

(** * Further properties of the sources

    ** The validator, field by field *)
Section ValidatorCoverage.
Import PlacesService Shapes Search.

Lemma SFcompare_defined (x y : spec_float) :
  JS.isNaN x = false -> JS.isNaN y = false -> exists c, SFcompare x y = Some c.
Proof. destruct x, y; simpl; try discriminate; eauto. Qed.

Lemma not_lt_le (x y : JS.number) :
  JS.isNaN x = false -> JS.isNaN y = false -> JS.lt x y = false -> JS.le y x = true.
Proof.
  intros Hx Hy. destruct (SFcompare_defined x y Hx Hy) as [c Hc].
  unfold JS.lt, JS.le, SFltb, SFleb. rewrite Hc, (SFcompare_swap _ _ _ Hc).
  destruct c; simpl; congruence.
Qed.

Lemma le_false_of_lt (x y : JS.number) : JS.lt y x = true -> JS.le x y = false.
Proof.
  intros H. destruct (JS.le x y) eqn:E; [|reflexivity].
  apply le_not_lt in E. congruence.
Qed.

Lemma le_false_of_NaN_r (x y : JS.number) : JS.isNaN y = true -> JS.le x y = false.
Proof.
  intros H. destruct (JS.le x y) eqn:E; [|reflexivity].
  apply le_not_NaN_r in E. congruence.
Qed.

Lemma le_false_of_NaN_l (x y : JS.number) : JS.isNaN x = true -> JS.le x y = false.
Proof. destruct x; simpl; try discriminate. reflexivity. Qed.

(** [lo <= x <= hi], for bounds that are numbers, is what is left when
    [x] is a number and neither [x < lo] nor [x > hi]. *)
Lemma between_iff (lo hi x : JS.number) :
  JS.isNaN lo = false -> JS.isNaN hi = false ->
  JS.le lo x && JS.le x hi
  = negb (JS.isNaN x) && negb (JS.lt x lo || JS.gt x hi).
Proof.
  intros Hlo Hhi.
  destruct (JS.isNaN x) eqn:Hx.
  { by rewrite (le_false_of_NaN_r _ _ Hx). }
  destruct (JS.lt x lo) eqn:H1.
  { by rewrite (le_false_of_lt _ _ H1). }
  rewrite (not_lt_le _ _ Hx Hlo H1).
  destruct (JS.gt x hi) eqn:H2.
  { unfold JS.gt in H2. by rewrite (le_false_of_lt _ _ H2). }
  unfold JS.gt in H2. by rewrite (not_lt_le _ _ Hhi Hx H2).
Qed.

Lemma validate_query_count request :
  length (validate_query request []) = if query_accepted request then 0%nat else 1%nat.
Proof.
  unfold validate_query, query_accepted, push.
  destruct (get request "query") as [| |b|x|q|l|o]; try reflexivity;
    try (by destruct (truthy _)).
  destruct q as [|c r]; [reflexivity|]. cbn [truthy negb].
  destruct (String.length (JS.trim (String c r)) =? 0)%nat; [reflexivity|].
  cbn [negb andb].
  destruct (Nat.ltb_spec 2048 (String.length (String c r)));
    destruct (Nat.leb_spec (String.length (String c r)) 2048); try lia; reflexivity.
Qed.

Lemma validate_location_count request :
  length (validate_location request [])
  = if location_absent_or_valid request then 0%nat else 1%nat.
Proof.
  unfold validate_location, location_absent_or_valid, push.
  destruct (get request "location") as [| |b|x|loc|l|o]; try reflexivity.
  unfold two_valid_coordinates.
  pose proof (coordinates_length loc) as Hlen. fold (coordinates loc).
  destruct (coordinates loc) as [|lat [|lng [|extra rest]]]; simpl in Hlen;
    rewrite <- Hlen; try reflexivity.
  cbn [length Nat.eqb negb nth].
  unfold valid_latitude, valid_longitude.
  rewrite !between_iff by reflexivity.
  destruct (JS.isNaN lat); [reflexivity|].
  destruct (JS.isNaN lng); [by rewrite andb_false_r|].
  cbn [orb negb andb].
  destruct (JS.lt lat (JS.of_Z (-90)) || JS.gt lat (JS.of_Z 90)); [reflexivity|].
  cbn [negb andb].
  by destruct (JS.lt lng (JS.of_Z (-180)) || JS.gt lng (JS.of_Z 180)).
Qed.

Lemma validate_radius_count request :
  length (validate_radius request [])
  = if radius_accepted request then 0%nat else 1%nat.
Proof.
  unfold validate_radius, radius_accepted, push.
  destruct (get request "radius") as [| |b|r|s|l|o]; try reflexivity.
  rewrite between_iff by reflexivity.
  destruct (JS.isNaN r) eqn:Hr.
  - destruct r; try discriminate. reflexivity.
  - cbn [negb andb orb].
    destruct (JS.lt r (JS.of_Z 0)); [reflexivity|].
    by destruct (JS.gt r (JS.of_Z 50000)).
Qed.

Lemma validateRequest_of_non_object (v : value) :
  (forall o, v <> VObj o) ->
  validateRequest v =
    match v with
    | VArr _ => [msg_query_missing]
    | _ => [msg_body]
    end.
Proof.
  intros Hv. destruct v as [| |[]|[]|[]|l|o]; try reflexivity.
  by destruct (Hv o).
Qed.

(** X1. A body that is not an object is answered with the single message
    about the body, except an array, which passes as an object and is told
    that [query] is missing. *)
Theorem validateRequest_rejects_non_objects (v : value) :
  (forall o, v <> VObj o) ->
  validateRequest v =
    match v with
    | VArr _ => [msg_query_missing]
    | _ => [msg_body]
    end.
Proof.
  intros. apply validateRequest_of_non_object; assumption.
Qed.

Lemma validateRequest_non_object_examples :
  validateRequest VNull = [msg_body]
  /\ validateRequest (VStr "query=coffee") = [msg_body]
  /\ validateRequest (VArr [VStr "coffee"]) = [msg_query_missing].
Proof.
  split; [|split].
  - apply (validateRequest_rejects_non_objects VNull). discriminate.
  - apply (validateRequest_rejects_non_objects (VStr "query=coffee")). discriminate.
  - apply (validateRequest_rejects_non_objects (VArr [VStr "coffee"])). discriminate.
Defined.

Lemma validateRequest_length (o : gmap string value) :
  length (validateRequest (VObj o))
  = ((if query_accepted (VObj o) then 0 else 1)
     + (if location_absent_or_valid (VObj o) then 0 else 1)
     + (if radius_accepted (VObj o) then 0 else 1))%nat.
Proof.
  rewrite validateRequest_object, !length_app.
  rewrite validate_query_count, validate_location_count, validate_radius_count.
  lia.
Qed.

(** X2. On an object every field is checked, whatever the other fields
    are: the number of messages is the number of fields among [query],
    [location] and [radius] that are not acceptable. *)
Theorem validateRequest_counts_invalid_fields (o : gmap string value) :
  length (validateRequest (VObj o))
  = ((if query_accepted (VObj o) then 0 else 1)
     + (if location_absent_or_valid (VObj o) then 0 else 1)
     + (if radius_accepted (VObj o) then 0 else 1))%nat.
Proof.
  intros. apply validateRequest_length; assumption.
Qed.

Lemma validateRequest_nil_iff (v : value) :
  validateRequest v = [] <->
  exists o, v = VObj o
            /\ query_accepted v = true
            /\ location_absent_or_valid v = true
            /\ radius_accepted v = true.
Proof.
  split.
  - intros Hv.
    destruct v as [| |b|x|s|l|o];
      try (rewrite validateRequest_of_non_object in Hv by discriminate;
           discriminate).
    exists o. split; [reflexivity|].
    pose proof (validateRequest_length o) as Hcount.
    rewrite Hv in Hcount. simpl in Hcount.
    destruct (query_accepted (VObj o)), (location_absent_or_valid (VObj o)),
      (radius_accepted (VObj o)); try discriminate; auto.
  - intros (o & -> & Hq & Hl & Hr).
    pose proof (validateRequest_length o) as Hcount.
    rewrite Hq, Hl, Hr in Hcount.
    by destruct (validateRequest (VObj o)).
Qed.

(** X3. The bodies [validateRequest] accepts are exactly the objects whose
    [query] is a string that is not empty after trimming and has at most
    2048 code units, whose [location] is absent or holds two coordinates
    in range, and whose [radius] is absent or a number from 0 to 50000 (or
    [NaN]). *)
Theorem validateRequest_accepts_exactly (v : value) :
  validateRequest v = [] <->
  exists o, v = VObj o
            /\ query_accepted v = true
            /\ location_absent_or_valid v = true
            /\ radius_accepted v = true.
Proof.
  intros. apply validateRequest_nil_iff; assumption.
Qed.

End ValidatorCoverage.

(** ** Trimming and splitting *)
Section TrimFacts.
Import Parts.

Lemma trimStart_head (s : string) : head_not_ws (JS.trimStart s).
Proof.
  induction s as [|c r IH]; simpl; [exact I|].
  destruct (JS.is_ws c) eqn:E; [exact IH|]. simpl. exact E.
Qed.

Lemma trimStart_id (s : string) : head_not_ws s -> JS.trimStart s = s.
Proof. destruct s as [|c r]; simpl; [reflexivity|]. by intros ->. Qed.

Lemma trimEnd_step (c : ascii) (r : string) :
  JS.trimEnd (String c r) =
    match JS.trimEnd r with
    | EmptyString => if JS.is_ws c then EmptyString else String c EmptyString
    | r' => String c r'
    end.
Proof. reflexivity. Qed.

Lemma trimEnd_head (s : string) : head_not_ws s -> head_not_ws (JS.trimEnd s).
Proof.
  destruct s as [|c r]; [intros _; exact I|]. simpl head_not_ws at 1. intros Hc.
  rewrite trimEnd_step. destruct (JS.trimEnd r); [rewrite Hc|]; exact Hc.
Qed.

Lemma trimEnd_idem (s : string) : JS.trimEnd (JS.trimEnd s) = JS.trimEnd s.
Proof.
  induction s as [|c r IH]; [reflexivity|].
  rewrite trimEnd_step. destruct (JS.trimEnd r) as [|d r'] eqn:E.
  - destruct (JS.is_ws c) eqn:Hc; [reflexivity|].
    rewrite trimEnd_step. simpl. by rewrite Hc.
  - rewrite trimEnd_step, IH. reflexivity.
Qed.

Lemma trimStart_idem (s : string) : JS.trimStart (JS.trimStart s) = JS.trimStart s.
Proof. apply trimStart_id, trimStart_head. Qed.

Lemma trimStart_trimEnd (s : string) :
  JS.trimStart (JS.trimEnd s) = JS.trimEnd (JS.trimStart s).
Proof.
  induction s as [|c r IH]; [reflexivity|].
  destruct (JS.is_ws c) eqn:Hc.
  - change (JS.trimStart (String c r)) with
      (if JS.is_ws c then JS.trimStart r else String c r).
    rewrite Hc, <- IH, trimEnd_step.
    destruct (JS.trimEnd r) as [|d r']; [by rewrite Hc|].
    simpl. by rewrite Hc.
  - rewrite (trimStart_id (String c r)) by exact Hc.
    apply trimStart_id, trimEnd_head. exact Hc.
Qed.

Lemma trim_idem (s : string) : JS.trim (JS.trim s) = JS.trim s.
Proof.
  unfold JS.trim. by rewrite trimStart_trimEnd, trimStart_idem, trimEnd_idem.
Qed.

Lemma trim_trimStart (s : string) : JS.trim (JS.trimStart s) = JS.trim s.
Proof. unfold JS.trim. by rewrite trimStart_idem. Qed.

Lemma trim_trimEnd (s : string) : JS.trim (JS.trimEnd s) = JS.trim s.
Proof. unfold JS.trim. by rewrite trimStart_trimEnd, trimEnd_idem. Qed.

Lemma map_map_head {A B} (g : A -> B) (f : A -> A) (l : list A) :
  (forall x, g (f x) = g x) -> map g (map_head f l) = map g l.
Proof. intros H. destruct l; simpl; [reflexivity|]. by rewrite H. Qed.

Lemma map_map_last {A B} (g : A -> B) (f : A -> A) (l : list A) :
  (forall x, g (f x) = g x) -> map g (map_last f l) = map g l.
Proof.
  intros H. induction l as [|x t IH]; [reflexivity|].
  destruct t as [|y t']; simpl; [by rewrite H|].
  simpl in IH. by rewrite IH.
Qed.

Lemma split_step (sep c : ascii) (r : string) :
  JS.split sep (String c r) =
    if Ascii.eqb c sep then EmptyString :: JS.split sep r
    else match JS.split sep r with
         | h :: t => String c h :: t
         | [] => [String c EmptyString]
         end.
Proof. reflexivity. Qed.

Lemma split_not_nil (sep : ascii) (s : string) : JS.split sep s <> [].
Proof.
  destruct s as [|c r]; [discriminate|]. rewrite split_step.
  destruct (Ascii.eqb c sep); [discriminate|].
  destruct (JS.split sep r); discriminate.
Qed.

(** A string that splits into one part is that part. *)
Lemma split_single (sep : ascii) (s h : string) : JS.split sep s = [h] -> h = s.
Proof.
  revert h. induction s as [|c r IH]; intros h.
  - by intros [= <-].
  - rewrite split_step. destruct (Ascii.eqb c sep).
    + intros [= <- Hr]. by destruct (split_not_nil sep r).
    + destruct (JS.split sep r) as [|h' t] eqn:E;
        [by destruct (split_not_nil sep r)|].
      intros [= <- ->]. by rewrite (IH h' eq_refl).
Qed.

Lemma split_trimStart (sep : ascii) (s : string) :
  JS.is_ws sep = false ->
  JS.split sep (JS.trimStart s) = map_head JS.trimStart (JS.split sep s).
Proof.
  intros Hsep. induction s as [|c r IH]; [reflexivity|].
  destruct (JS.is_ws c) eqn:Hc.
  - change (JS.trimStart (String c r)) with
      (if JS.is_ws c then JS.trimStart r else String c r).
    rewrite Hc, IH, split_step.
    destruct (Ascii.eqb_spec c sep) as [->|_]; [congruence|].
    destruct (JS.split sep r) as [|h t] eqn:E; [by destruct (split_not_nil sep r)|].
    simpl. by rewrite Hc.
  - rewrite (trimStart_id (String c r)) by exact Hc.
    rewrite split_step. destruct (Ascii.eqb c sep); [reflexivity|].
    destruct (JS.split sep r) as [|h t]; simpl; by rewrite Hc.
Qed.

Lemma split_trimEnd (sep : ascii) (s : string) :
  JS.is_ws sep = false ->
  JS.split sep (JS.trimEnd s) = map_last JS.trimEnd (JS.split sep s).
Proof.
  intros Hsep. induction s as [|c r IH]; [reflexivity|].
  rewrite trimEnd_step, (split_step sep c r).
  destruct (Ascii.eqb_spec c sep) as [->|Hne].
  - rewrite Hsep.
    assert (Hsplit : forall t, JS.split sep (String sep t) = EmptyString :: JS.split sep t).
    { intros t. rewrite split_step. by rewrite Ascii.eqb_refl. }
    destruct (JS.split sep r) as [|h t] eqn:E; [by destruct (split_not_nil sep r)|].
    change (map_last JS.trimEnd (EmptyString :: h :: t))
      with (EmptyString :: map_last JS.trimEnd (h :: t)).
    rewrite <- IH. destruct (JS.trimEnd r); apply Hsplit.
  - assert (Hstep : forall t, JS.split sep (String c t) =
                      match JS.split sep t with
                      | h :: u => String c h :: u
                      | [] => [String c EmptyString]
                      end).
    { intros t. rewrite split_step.
      by destruct (Ascii.eqb_spec c sep) as [->|_]. }
    destruct (JS.split sep r) as [|h t] eqn:E; [by destruct (split_not_nil sep r)|].
    destruct (JS.trimEnd r) as [|d r'] eqn:Hr.
    + destruct t as [|h2 t2]; simpl in IH.
      * injection IH as IH. cbn [map_last]. rewrite trimEnd_step, <- IH.
        destruct (JS.is_ws c); [reflexivity|]. rewrite Hstep. reflexivity.
      * destruct t2; discriminate.
    + rewrite Hstep, IH. destruct t as [|h2 t2].
      * cbn [map_last]. rewrite trimEnd_step.
        pose proof (split_single sep (String d r') (JS.trimEnd h) IH) as Hh.
        rewrite Hh. reflexivity.
      * reflexivity.
Qed.

End TrimFacts.

(** ** The search behind the priced route *)
Section SearchCoverage.
Import PlacesService Shapes Search Server Parts.

Lemma coordinates_trim (loc : string) : coordinates (JS.trim loc) = coordinates loc.
Proof.
  unfold coordinates.
  change (JS.trim loc) with (JS.trimEnd (JS.trimStart loc)).
  rewrite split_trimEnd, split_trimStart by reflexivity.
  rewrite map_map_last by (intros x; cbv beta; by rewrite trim_trimEnd).
  apply map_map_head. intros x. cbv beta. by rewrite trim_trimStart.
Qed.

Lemma map_outcome_length {A B} (f : A -> outcome B) (l : list A) (l' : list B) :
  map_outcome f l = Returned l' -> length l' = length l.
Proof.
  revert l'. induction l as [|x r IH]; intros l'; simpl.
  - by intros [= <-].
  - destruct (f x) as [y|]; [|discriminate]. simpl.
    destruct (map_outcome f r) as [ys|]; [|discriminate]. simpl.
    intros [= <-]. simpl. by rewrite (IH ys eq_refl).
Qed.

Lemma map_outcome_thrown {A B} (f : A -> outcome B) (l : list A) (m : string) :
  map_outcome f l = Thrown m -> exists x, In x l /\ f x = Thrown m.
Proof.
  induction l as [|x r IH]; simpl; [discriminate|].
  destruct (f x) as [y|m'] eqn:Hx; simpl.
  - destruct (map_outcome f r) as [ys|m'']; simpl; [discriminate|].
    intros [= <-]. destruct (IH eq_refl) as (z & Hz & Hf). eauto.
  - intros [= <-]. eauto.
Qed.

Lemma map_outcome_fails {A B} (f : A -> outcome B) (l : list A) (x : A) (m : string) :
  In x l -> f x = Thrown m -> exists m', map_outcome f l = Thrown m'.
Proof.
  induction l as [|y r IH]; simpl; [tauto|].
  intros [->|Hin] Hx.
  - rewrite Hx. simpl. eauto.
  - destruct (f y); simpl; [|eauto].
    destruct (IH Hin Hx) as [m' ->]. simpl. eauto.
Qed.

(** Whatever [format_place] throws is neither a parameter error nor an
    error that mentions the API. *)
Lemma format_place_thrown (result : value) (m : string) :
  format_place result = Thrown m -> textSearch_catch m = generic_failure.
Proof.
  unfold format_place.
  destruct (nullish result) eqn:Hr.
  { intros [= <-]. by destruct result. }
  destruct (nullish (get result "geometry")) eqn:Hg.
  { intros [= <-]. by destruct (get result "geometry"). }
  destruct (nullish (get (get result "geometry") "location")) eqn:Hl.
  { intros [= <-]. by destruct (get (get result "geometry") "location"). }
  unfold with_photos.
  destruct (truthy (get result "photos")); [|discriminate]. cbn [negb].
  destruct (get result "photos") as [| |b|x|s|l|o]; try (by intros [= <-]).
  destruct (map_outcome format_photo (take 2 l)) as [ps|m'] eqn:Hp; [discriminate|].
  intros [= <-]. apply map_outcome_thrown in Hp as (photo & _ & Hphoto).
  unfold format_photo in Hphoto.
  destruct (nullish photo) eqn:Hn; [|discriminate].
  injection Hphoto as <-. by destruct photo.
Qed.

(** What the photos of a place are when all of them could be formatted:
    the three fields of each, in the order of the input. *)
Lemma map_outcome_format_photo (l ps : list value) :
  map_outcome format_photo l = Returned ps ->
  ps = map (fun photo =>
              VObj {[ "photo_reference" := get photo "photo_reference";
                      "height" := get photo "height";
                      "width" := get photo "width" ]}) l
  /\ forall photo, In photo l -> nullish photo = false.
Proof.
  revert ps. induction l as [|x r IH]; intros ps; simpl.
  - intros [= <-]. split; [reflexivity|]. intros photo [].
  - unfold format_photo at 1. destruct (nullish x) eqn:Hx; [discriminate|].
    cbn [bind]. destruct (map_outcome format_photo r) as [ys|]; [|discriminate].
    cbn [bind]. intros [= <-]. destruct (IH ys eq_refl) as [-> Hall].
    split; [reflexivity|]. intros photo [<-|Hin]; [exact Hx|by apply Hall].
Qed.

(** X4. A place in a search result carries at most two photos: none when
    the API result has no (or a falsy) [photos]; and for an array, its
    first two entries (all of them when there are fewer), in their order,
    each reduced to [photo_reference], [height] and [width]. *)
Theorem format_place_keeps_two_photos (result place : value) :
  format_place result = Returned place ->
  (photo_count place <= 2)%nat
  /\ (forall l, get result "photos" = VArr l ->
                get place "photos"
                = VArr (map (fun photo =>
                               VObj {[ "photo_reference" := get photo "photo_reference";
                                       "height" := get photo "height";
                                       "width" := get photo "width" ]})
                            (take 2 l))
                /\ photo_count place = Nat.min 2 (length l))
  /\ (truthy (get result "photos") = false -> get place "photos" = VUndefined).
Proof.
  unfold format_place.
  destruct (nullish result); [discriminate|].
  destruct (nullish (get result "geometry")); [discriminate|].
  destruct (nullish (get (get result "geometry") "location")); [discriminate|].
  unfold with_photos, photo_count.
  destruct (truthy (get result "photos")) eqn:Ht; cbn [negb bind].
  - destruct (get result "photos") as [| |b|x|s|l|o]; try discriminate.
    destruct (map_outcome format_photo (take 2 l)) as [ps|] eqn:Hp; [|discriminate].
    cbn [bind]. intros [= <-]. cbn [get]. rewrite lookup_insert_eq.
    cbn [default from_option Datatypes.id].
    pose proof (map_outcome_length _ _ _ Hp) as Hlen.
    apply map_outcome_format_photo in Hp as [Hps _].
    rewrite Hlen, length_take.
    split; [lia|]. split; [|discriminate].
    intros l' [= <-]. split; [by rewrite Hps|reflexivity].
  - intros [= <-]. split; [|split].
    + vm_compute. lia.
    + intros l Hl. rewrite Hl in Ht. discriminate.
    + intros _. reflexivity.
Qed.

Lemma format_place_two_photos_example :
  let photo (ref : string) : value :=
    VObj {[ "photo_reference" := VStr ref; "height" := VNum (JS.of_Z 300);
            "width" := VNum (JS.of_Z 400); "html_attributions" := VArr [] ]} in
  let kept (ref : string) : value :=
    VObj {[ "photo_reference" := VStr ref; "height" := VNum (JS.of_Z 300);
            "width" := VNum (JS.of_Z 400) ]} in
  exists place,
    format_place (VObj {[ "geometry" := VObj {[ "location" := VObj ∅ ]};
                          "photos" := VArr [photo "a"; photo "b"; photo "c"] ]})
    = Returned place
    /\ get place "photos" = VArr [kept "a"; kept "b"]
    /\ photo_count place = 2%nat.
Proof.
  cbn zeta.
  match goal with
  | |- exists place, format_place ?r = _ /\ _ =>
      destruct (format_place r) as [place|] eqn:E; [|vm_compute in E; discriminate]
  end.
  exists place. split; [reflexivity|].
  destruct (format_place_keeps_two_photos _ _ E) as (_ & H & _).
  match type of E with
  | format_place (VObj (<[_ := _]> (<[_ := VArr ?l]> _))) = _ =>
      destruct (H l eq_refl) as [Hphotos Hcount]
  | format_place (VObj {[ _ := _; _ := VArr ?l ]}) = _ =>
      destruct (H l eq_refl) as [Hphotos Hcount]
  end.
  split; [|exact Hcount].
  rewrite Hphotos. vm_compute. reflexivity.
Defined.

End SearchCoverage.

(** ** The route and the search together *)
Section RouteCoverage.
Import PlacesService Shapes Search Server.

(** X5. [textSearch] returns only when the API key is configured, the
    Places API answered with an ok response whose body could be read and
    whose status is OK or ZERO_RESULTS, and every result could be
    formatted; the value returned then carries that status, one place for
    each result of the API, in order, and the query, the constant cost
    and the time of the search as metadata. *)
Theorem textSearch_returns_only_on_success
    (env : environment) (reply : fetched) (now : string)
    (request : PlaceSearchRequest) (v : value) :
  textSearch env reply now request = Returned v ->
  env_truthy (env !! "GOOGLE_PLACES_API_KEY") = true
  /\ exists status statusText data places,
       reply = Fetched true status statusText (Returned data)
       /\ (api_status data = "OK" \/ api_status data = "ZERO_RESULTS")
       /\ map_outcome format_place (default [] (api_results data)) = Returned places
       /\ length places = length (default [] (api_results data))
       /\ v = VObj {[ "status" := VStr (api_status data);
                      "results" := VArr places;
                      "metadata" := VObj {[ "query" := VStr (query request);
                                            "cost" := VStr "$0.01";
                                            "timestamp" := VStr now ]} ]}.
Proof.
  unfold textSearch.
  destruct (textSearch_try env reply now request) as [v'|] eqn:E; [|discriminate].
  intros [= <-]. unfold textSearch_try in E.
  destruct (env_truthy (env !! "GOOGLE_PLACES_API_KEY")); [|discriminate].
  split; [reflexivity|]. cbn [negb] in E.
  repeat (match type of E with
          | (if ?c then _ else _) = _ => destruct c; try discriminate
          end).
  destruct reply as [m|ok status statusText json]; [discriminate|].
  destruct ok; [|discriminate]. cbn [negb] in E.
  apply bind_returned in E as (data & -> & E).
  destruct (negb (api_status data =? "OK")%string
            && negb (api_status data =? "ZERO_RESULTS")%string) eqn:Hst;
    [discriminate|].
  apply bind_returned in E as (places & Hplaces & [= <-]).
  exists status, statusText, data, places.
  split; [reflexivity|]. split.
  - apply andb_false_iff in Hst as [H|H]; apply negb_false_iff, String.eqb_eq in H; auto.
  - split; [exact Hplaces|]. split; [|reflexivity].
    by apply map_outcome_length in Hplaces.
Qed.

Lemma textSearch_returns_example :
  exists places,
    Examples.search = Returned Examples.searchResults
    /\ get Examples.searchResults "results" = VArr places
    /\ length places = 1%nat.
Proof.
  pose proof example_search as E. unfold Examples.search in E.
  apply bind_returned in E as (request & _ & E).
  destruct (textSearch_returns_only_on_success _ _ _ _ _ E)
    as (_ & st & txt & data & places & Hreply & _ & _ & Hlen & Hv).
  exists places. split; [exact example_search|].
  rewrite Hv. split; [reflexivity|].
  rewrite Hlen. unfold Examples.reply in Hreply.
  inversion Hreply. reflexivity.
Defined.

(** X6. Without an API key every search fails, whatever the request and
    whatever the Places API would answer, and the caller sees it as the
    API being unavailable. *)
Theorem textSearch_without_key
    (env : environment) (reply : fetched) (now : string)
    (request : PlaceSearchRequest) :
  env_truthy (env !! "GOOGLE_PLACES_API_KEY") = false ->
  textSearch env reply now request
  = Thrown "Places API unavailable: Google Places API key not configured".
Proof.
  intros Hkey. unfold textSearch, textSearch_try. rewrite Hkey. reflexivity.
Qed.

Lemma textSearch_without_key_example :
  textSearch ∅ Examples.reply Examples.search_time
    {| query := "coffee shops"; location := None; radius := None |}
  = Thrown "Places API unavailable: Google Places API key not configured".
Proof. apply textSearch_without_key. reflexivity. Defined.

(** The parameter checks of [textSearch] pass on what the route hands over
    for a body the validator accepted. *)
Lemma search_request_accepted (o : gmap string value) :
  query_accepted (VObj o) = true ->
  location_absent_or_valid (VObj o) = true ->
  radius_accepted (VObj o) = true ->
  exists request,
    search_request (VObj o) = Returned request
    /\ forall env reply now,
         env_truthy (env !! "GOOGLE_PLACES_API_KEY") = true ->
         textSearch_try env reply now request = call_places_api reply now request.
Proof.
  unfold query_accepted, location_absent_or_valid, radius_accepted, search_request.
  destruct (get (VObj o) "query") as [| |b|x|q|l|o']; try discriminate.
  intros Hq Hloc Hrad.
  apply andb_prop in Hq as [Htrim _]. apply negb_true_iff in Htrim.
  assert (Hradius : forall r, JS.isNaN r || (JS.le (JS.of_Z 0) r && JS.le r (JS.of_Z 50000)) = true ->
                              JS.lt r (JS.of_Z 0) || JS.gt r (JS.of_Z 50000) = false).
  { intros r [Hnan|Hin]%orb_prop.
    - destruct r; try discriminate. reflexivity.
    - apply andb_prop in Hin as [H0 H1].
      by rewrite (le_not_lt _ _ H0), (le_not_gt _ _ H1). }
  assert (Hlocation : forall loc c r, two_valid_coordinates loc = true ->
                        JS.trim loc = String c r ->
                        JS.isNaN (nth 0 (coordinates (String c r)) JS.NaN)
                        || JS.isNaN (nth 1 (coordinates (String c r)) JS.NaN) = false).
  { intros loc c r Hvalid Ht. rewrite <- Ht, coordinates_trim.
    unfold two_valid_coordinates in Hvalid.
    destruct (coordinates loc) as [|lat [|lng [|]]]; try discriminate.
    apply andb_prop in Hvalid as [Hlat Hlng].
    apply andb_prop in Hlat as [Hlat _]. apply andb_prop in Hlng as [Hlng _].
    cbn [nth]. by rewrite (le_not_NaN_r _ _ Hlat), (le_not_NaN_r _ _ Hlng). }
  destruct (get (VObj o) "location") as [| |b|x|loc|l|o']; try discriminate;
    destruct (get (VObj o) "radius") as [| |b'|rad|s'|l'|o'']; try discriminate;
    (eexists; split; [reflexivity|];
     intros env reply now Hkey; unfold textSearch_try, call_places_api;
     rewrite Hkey; cbn [negb query location radius];
     rewrite trim_idem, Htrim, orb_diag;
     try rewrite (Hradius _ Hrad);
     try (destruct (JS.trim loc) as [|c r] eqn:Ht;
          [|cbv zeta; fold (coordinates (String c r));
            rewrite (Hlocation loc c r Hloc Ht)]);
     reflexivity).
Qed.

Lemma accepted_request_outcome
    (x402Config : Config.PaymentConfig) (development : bool) (env : environment)
    (reply : fetched) (now_search now_reply : string) (req_body : value) :
  validateRequest req_body = [] ->
  env_truthy (env !! "GOOGLE_PLACES_API_KEY") = true ->
  exists request,
    search_request req_body = Returned request
    /\ text_search_route x402Config development env reply now_search now_reply req_body
       = match call_places_api reply now_search request with
         | Returned searchResults =>
             {| status := 200;
                body := with_metadata searchResults
                                      (payment_metadata x402Config now_reply) |}
         | Thrown message => internal_error development (textSearch_catch message)
         end.
Proof.
  intros Hvalid Hkey.
  pose proof Hvalid as Hacc.
  apply validateRequest_nil_iff in Hacc as (o & -> & Hq & Hl & Hr).
  destruct (search_request_accepted o Hq Hl Hr) as (request & Hreq & Hchecks).
  exists request. split; [exact Hreq|].
  unfold text_search_route. rewrite Hvalid, Hreq. cbn [length Nat.ltb Nat.leb bind].
  unfold textSearch. rewrite (Hchecks env reply now_search Hkey).
  by destruct (call_places_api reply now_search request).
Qed.

(** X7. Validation and search agree: for a body the validator accepts, and
    with an API key configured, none of the parameter checks of
    [textSearch] fires, so the reply of the route is decided by the call of
    the Places API alone: 200 with the search result and the payment
    metadata when it succeeds, 500 otherwise. *)
Theorem accepted_request_reaches_places_api
    (x402Config : Config.PaymentConfig) (development : bool) (env : environment)
    (reply : fetched) (now_search now_reply : string) (req_body : value) :
  validateRequest req_body = [] ->
  env_truthy (env !! "GOOGLE_PLACES_API_KEY") = true ->
  exists request,
    search_request req_body = Returned request
    /\ text_search_route x402Config development env reply now_search now_reply req_body
       = match call_places_api reply now_search request with
         | Returned searchResults =>
             {| status := 200;
                body := with_metadata searchResults
                                      (payment_metadata x402Config now_reply) |}
         | Thrown message => internal_error development (textSearch_catch message)
         end.
Proof.
  intros. apply accepted_request_outcome; assumption.
Qed.

Lemma accepted_request_example :
  Server.status Examples.route_reply = 200%nat
  /\ results_of (body Examples.route_reply) = results_of Examples.searchResults.
Proof.
  destruct (accepted_request_reaches_places_api Examples.x402Config false
              Examples.env Examples.reply Examples.search_time
              Examples.reply_time Examples.req_body)
    as (request & Hreq & Hroute); [vm_compute; reflexivity | reflexivity |].
  unfold Examples.route_reply. rewrite Hroute.
  vm_compute in Hreq. injection Hreq as <-.
  split; vm_compute; reflexivity.
Defined.

(** X8. One result of the Places API without a [geometry] makes the whole
    search of an accepted request fail: the route answers 500, and what
    went wrong is reported, in development, by the generic message
    only. *)
Theorem result_without_geometry_fails_search
    (x402Config : Config.PaymentConfig) (development : bool) (env : environment)
    (now_search now_reply : string) (req_body : value)
    (status : nat) (statusText : string) (data : PlacesApiBody) (bad : value) :
  validateRequest req_body = [] ->
  env_truthy (env !! "GOOGLE_PLACES_API_KEY") = true ->
  api_status data = "OK" ->
  In bad (default [] (api_results data)) ->
  nullish (get bad "geometry") = true ->
  text_search_route x402Config development env
    (Fetched true status statusText (Returned data)) now_search now_reply req_body
  = internal_error development generic_failure.
Proof.
  intros Hvalid Hkey Hst Hin Hbad.
  destruct (accepted_request_outcome x402Config development env
              (Fetched true status statusText (Returned data))
              now_search now_reply req_body Hvalid Hkey)
    as (request & _ & ->).
  unfold call_places_api. cbn [negb bind]. rewrite Hst.
  replace (negb ("OK" =? "OK")%string && negb ("OK" =? "ZERO_RESULTS")%string)
    with false by reflexivity.
  assert (Hthrow : exists m, format_place bad = Thrown m).
  { unfold format_place. destruct (nullish bad); [eauto|]. rewrite Hbad. eauto. }
  destruct Hthrow as [m Hm].
  destruct (map_outcome_fails _ _ _ _ Hin Hm) as [m' Hm'].
  rewrite Hm'. cbn [bind]. cbv beta iota.
  apply map_outcome_thrown in Hm' as (x & _ & Hx).
  by rewrite (format_place_thrown _ _ Hx).
Qed.

Lemma result_without_geometry_example :
  Server.status
    (text_search_route Examples.x402Config true Examples.env
       (Fetched true 200 "OK"
          (Returned {| api_status := "OK"; api_error_message := None;
                       api_results := Some [Examples.cafe; VObj {[ "name" := VStr "?" ]}] |}))
       Examples.search_time Examples.reply_time Examples.req_body) = 500%nat.
Proof.
  rewrite (result_without_geometry_fails_search _ _ _ _ _ _ _ _ _
             (VObj {[ "name" := VStr "?" ]}));
    try (vm_compute; reflexivity).
  vm_compute. auto.
Defined.

(** X9. The route answers 200, 400 or 500 and nothing else: 400 exactly
    when the validator reports errors, with all of them listed under
    [details.errors]; and outside development a 500 reply carries no
    detail of what failed. *)
Theorem text_search_route_statuses
    (x402Config : Config.PaymentConfig) (development : bool) (env : environment)
    (reply : fetched) (now_search now_reply : string) (req_body : value) :
  let r := text_search_route x402Config development env reply
                             now_search now_reply req_body in
  (status r = 200%nat \/ status r = 400%nat \/ status r = 500%nat)
  /\ (status r = 400%nat <-> validateRequest req_body <> [])
  /\ (status r = 400%nat ->
      get (get (body r) "details") "errors"
      = VArr (map VStr (validateRequest req_body)))
  /\ (status r = 500%nat -> development = false ->
      get (body r) "details" = VUndefined).
Proof.
  cbn zeta. unfold text_search_route.
  destruct (validateRequest req_body) as [|e errors] eqn:Hv.
  - cbn [length Nat.ltb Nat.leb].
    destruct (bind (search_request req_body) (textSearch env reply now_search))
      as [sr|m]; cbn [status body internal_error].
    + split; [auto|]. split; [split; [discriminate|congruence]|].
      split; discriminate.
    + split; [auto|]. split; [split; [discriminate|congruence]|].
      split; [discriminate|]. intros _ ->. reflexivity.
  - cbn [length Nat.ltb Nat.leb validation_failure status body].
    split; [auto|]. split; [split; [discriminate|reflexivity]|].
    split; [|discriminate]. intros _. reflexivity.
Qed.

End RouteCoverage.

(** ** The two configuration loaders and the start of the server *)
Section ConfigCoverage.
Import Config.

Variable env : environment.

Lemma env_or_truthy (v : option string) (d : string) :
  d <> "" -> env_truthy (Some (env_or v d)) = true.
Proof. intros Hd. destruct v as [[|c r]|], d as [|c' r']; simpl; congruence. Qed.

Lemma x402_module_closed_form :
  x402_module env =
    if env_truthy (env !! "GOOGLE_PLACES_API_KEY")
       && env_truthy (env !! "PAYMENT_WALLET_ADDRESS")
       && includes_network (env_or (env !! "NETWORK") "base")
    then Loaded {| payTo := default "" (env !! "PAYMENT_WALLET_ADDRESS");
                   facilitatorUrl :=
                     env_or (env !! "FACILITATOR_URL") "https://x402.org/facilitator";
                   network := env_or (env !! "NETWORK") "base";
                   priceUsd := env_or (env !! "PAYMENT_PRICE_USD") "0.01" |}
    else Exit 1.
Proof.
  destruct (env_truthy (env !! "GOOGLE_PLACES_API_KEY")) eqn:Hkey.
  - destruct (env_truthy (env !! "PAYMENT_WALLET_ADDRESS")) eqn:Hwallet.
    + by rewrite (x402_module_network env Hkey Hwallet).
    + unfold x402_module, requiredEnvVars, missing_keys.
      cbn [List.filter fst snd]. rewrite Hkey, Hwallet. reflexivity.
  - unfold x402_module, requiredEnvVars, missing_keys.
    cbn [List.filter fst snd]. rewrite Hkey. reflexivity.
Qed.

(** X10. src/config/x402.ts loads a configuration exactly when the API key
    and the wallet address are set and the network (by default [base]) is
    one of the valid networks; in every other case the process ends with
    exit code 1. The facilitator URL and the price never stop it: they
    default to https://x402.org/facilitator and 0.01. *)
Theorem x402_module_loads_exactly :
  x402_module env =
    if env_truthy (env !! "GOOGLE_PLACES_API_KEY")
       && env_truthy (env !! "PAYMENT_WALLET_ADDRESS")
       && includes_network (env_or (env !! "NETWORK") "base")
    then Loaded {| payTo := default "" (env !! "PAYMENT_WALLET_ADDRESS");
                   facilitatorUrl :=
                     env_or (env !! "FACILITATOR_URL") "https://x402.org/facilitator";
                   network := env_or (env !! "NETWORK") "base";
                   priceUsd := env_or (env !! "PAYMENT_PRICE_USD") "0.01" |}
    else Exit 1.
Proof.
  intros. apply x402_module_closed_form; assumption.
Qed.

Lemma getConfig_closed_form :
  getConfig env =
    if env_truthy (env !! "GOOGLE_PLACES_API_KEY")
       && env_truthy (env !! "PAYMENT_WALLET_ADDRESS")
       && env_truthy (env !! "FACILITATOR_URL")
    then Some {| payTo := default "" (env !! "PAYMENT_WALLET_ADDRESS");
                 facilitatorUrl := default "" (env !! "FACILITATOR_URL");
                 network := env_or (env !! "NETWORK") "base";
                 priceUsd := env_or (env !! "PAYMENT_PRICE_USD") "0.01" |}
    else None.
Proof.
  unfold getConfig, missing_keys. cbn [List.filter fst snd].
  replace (String.eqb "NETWORK" "NETWORK") with true by reflexivity.
  replace (String.eqb "PAYMENT_PRICE_USD" "PAYMENT_PRICE_USD") with true
    by reflexivity.
  rewrite !andb_false_r.
  destruct (env_truthy (env !! "GOOGLE_PLACES_API_KEY")),
    (env_truthy (env !! "PAYMENT_WALLET_ADDRESS")),
    (env_truthy (env !! "FACILITATOR_URL")); reflexivity.
Qed.

(** X11. [getConfig] returns [null] exactly when the API key, the wallet
    address or the facilitator URL is unset or empty; the network and the
    price never make it fail, they default to [base] and 0.01 and are
    returned as they are. *)
Theorem getConfig_returns_exactly :
  getConfig env =
    if env_truthy (env !! "GOOGLE_PLACES_API_KEY")
       && env_truthy (env !! "PAYMENT_WALLET_ADDRESS")
       && env_truthy (env !! "FACILITATOR_URL")
    then Some {| payTo := default "" (env !! "PAYMENT_WALLET_ADDRESS");
                 facilitatorUrl := default "" (env !! "FACILITATOR_URL");
                 network := env_or (env !! "NETWORK") "base";
                 priceUsd := env_or (env !! "PAYMENT_PRICE_USD") "0.01" |}
    else None.
Proof.
  intros. apply getConfig_closed_form; assumption.
Qed.

Lemma start_closed_form :
  Server.start env =
    if env_truthy (env !! "GOOGLE_PLACES_API_KEY")
       && env_truthy (env !! "PAYMENT_WALLET_ADDRESS")
       && env_truthy (env !! "FACILITATOR_URL")
       && includes_network (env_or (env !! "NETWORK") "base")
       && (negb (String.eqb (env_or (env !! "NETWORK") "base") "base")
           || (env_truthy (env !! "CDP_API_KEY_ID")
               && env_truthy (env !! "CDP_API_KEY_SECRET")))
    then Loaded {| payTo := default "" (env !! "PAYMENT_WALLET_ADDRESS");
                   facilitatorUrl := default "" (env !! "FACILITATOR_URL");
                   network := env_or (env !! "NETWORK") "base";
                   priceUsd := env_or (env !! "PAYMENT_PRICE_USD") "0.01" |}
    else Exit 1.
Proof.
  unfold Server.start. rewrite x402_module_closed_form, getConfig_closed_form.
  destruct (env_truthy (env !! "GOOGLE_PLACES_API_KEY")); [|reflexivity].
  destruct (env_truthy (env !! "PAYMENT_WALLET_ADDRESS")); [|reflexivity].
  cbn [andb].
  destruct (includes_network (env_or (env !! "NETWORK") "base"));
    [|by rewrite andb_false_r].
  destruct (env_truthy (env !! "FACILITATOR_URL")); [|reflexivity].
  cbn [andb network].
  destruct (String.eqb (env_or (env !! "NETWORK") "base") "base"); [|reflexivity].
  cbn [negb andb orb].
  destruct (env_truthy (env !! "CDP_API_KEY_ID")),
    (env_truthy (env !! "CDP_API_KEY_SECRET")); reflexivity.
Qed.

(** X12. The Express server gets past its start-up exactly when the API
    key, the wallet address and the facilitator URL are set, the network
    is a valid one and, for [base], both CDP credentials are set; it then
    runs with the configuration [getConfig] returned. Otherwise the
    process ends with exit code 1. *)
Theorem server_start_exactly :
  Server.start env =
    if env_truthy (env !! "GOOGLE_PLACES_API_KEY")
       && env_truthy (env !! "PAYMENT_WALLET_ADDRESS")
       && env_truthy (env !! "FACILITATOR_URL")
       && includes_network (env_or (env !! "NETWORK") "base")
       && (negb (String.eqb (env_or (env !! "NETWORK") "base") "base")
           || (env_truthy (env !! "CDP_API_KEY_ID")
               && env_truthy (env !! "CDP_API_KEY_SECRET")))
    then Loaded {| payTo := default "" (env !! "PAYMENT_WALLET_ADDRESS");
                   facilitatorUrl := default "" (env !! "FACILITATOR_URL");
                   network := env_or (env !! "NETWORK") "base";
                   priceUsd := env_or (env !! "PAYMENT_PRICE_USD") "0.01" |}
    else Exit 1.
Proof.
  intros. apply start_closed_form; assumption.
Qed.

(** X13. The default facilitator of src/config/x402.ts never serves the
    Express server: when FACILITATOR_URL is unset or empty, that module
    falls back to https://x402.org/facilitator, but [getConfig] returns
    [null] and the server ends with exit code 1. *)
Theorem server_needs_facilitator_url :
  env_truthy (env !! "FACILITATOR_URL") = false ->
  getConfig env = None
  /\ Server.start env = Exit 1
  /\ (forall c, x402_module env = Loaded c ->
                facilitatorUrl c = "https://x402.org/facilitator").
Proof.
  intros Hf. rewrite getConfig_closed_form, start_closed_form, Hf.
  rewrite !andb_false_r. cbn [andb]. split; [reflexivity|]. split; [reflexivity|].
  intros c. rewrite x402_module_closed_form.
  destruct (_ && _ && _); [|discriminate]. intros [= <-]. cbn [facilitatorUrl].
  destruct (env !! "FACILITATOR_URL") as [[|ch r]|]; try discriminate; reflexivity.
Qed.

(** X14. When both loaders return a configuration for the same
    environment, it is the same configuration. *)
Theorem loaders_agree (c1 c2 : PaymentConfig) :
  x402_module env = Loaded c1 -> getConfig env = Some c2 -> c1 = c2.
Proof.
  rewrite x402_module_closed_form, getConfig_closed_form.
  destruct (_ && _ && includes_network _); [|discriminate]. intros [= <-].
  destruct (env_truthy (env !! "FACILITATOR_URL")) eqn:Hf;
    [|by rewrite andb_false_r].
  destruct (_ && _ && true); [|discriminate]. intros [= <-].
  f_equal. by destruct (env !! "FACILITATOR_URL") as [[|ch r]|].
Qed.

End ConfigCoverage.

Section ConfigCoverageExamples.
Import Config.

Lemma server_needs_facilitator_url_example :
  let env : environment :=
    {[ "GOOGLE_PLACES_API_KEY" := "key"; "PAYMENT_WALLET_ADDRESS" := "0xabc";
       "NETWORK" := "avalanche" ]} in
  (exists c, x402_module env = Loaded c
             /\ facilitatorUrl c = "https://x402.org/facilitator")
  /\ Server.start env = Exit 1.
Proof.
  cbn zeta.
  destruct (server_needs_facilitator_url
              {[ "GOOGLE_PLACES_API_KEY" := "key"; "PAYMENT_WALLET_ADDRESS" := "0xabc";
                 "NETWORK" := "avalanche" ]})
    as (_ & Hstart & Hdefault); [reflexivity|].
  split; [|exact Hstart].
  eexists. split; [vm_compute; reflexivity|]. reflexivity.
Defined.

Lemma loaders_agree_example :
  exists c, x402_module Examples.env = Loaded c /\ getConfig Examples.env = Some c.
Proof.
  destruct (x402_module Examples.env) as [code|c1] eqn:E1;
    [vm_compute in E1; discriminate|].
  destruct (getConfig Examples.env) as [c2|] eqn:E2; [|vm_compute in E2; discriminate].
  exists c1. split; [reflexivity|].
  by rewrite (loaders_agree Examples.env c1 c2 E1 E2).
Defined.

End ConfigCoverageExamples.

(** ** The network at start-up *)
Section NetworkResolution.
Import Config.

(** C3. The network the program resolves is [NETWORK], or [base] when that
    is unset or empty. When it is outside [validNetworks], the import of
    src/config/x402.ts ends the process with exit code 1, and so does the
    start-up of the server, whatever else is configured: [getConfig] is
    not reached. When it is inside, and the other settings are complete
    (API key, wallet address, facilitator URL, and the CDP credentials on
    [base]), start-up proceeds with one configuration, the same on both
    loading paths (src/config/x402.ts and [getConfig]), which carries that
    network. So every configuration the server starts with has a network
    of [validNetworks] and is the one both paths loaded. *)
Theorem network_decides_startup (env : environment) :
  let NETWORK := env_or (env !! "NETWORK") "base" in
  (includes_network NETWORK = false ->
   x402_module env = Exit 1 /\ Server.start env = Exit 1)
  /\ (includes_network NETWORK = true ->
      env_truthy (env !! "GOOGLE_PLACES_API_KEY") = true ->
      env_truthy (env !! "PAYMENT_WALLET_ADDRESS") = true ->
      env_truthy (env !! "FACILITATOR_URL") = true ->
      (NETWORK = "base" ->
       env_truthy (env !! "CDP_API_KEY_ID") = true
       /\ env_truthy (env !! "CDP_API_KEY_SECRET") = true) ->
      exists c, Server.start env = Loaded c
                /\ x402_module env = Loaded c
                /\ getConfig env = Some c
                /\ network c = NETWORK)
  /\ (forall c, Server.start env = Loaded c ->
                includes_network (network c) = true
                /\ network c = NETWORK
                /\ x402_module env = Loaded c
                /\ getConfig env = Some c).
Proof.
  cbn zeta.
  assert (Hurl : env_truthy (env !! "FACILITATOR_URL") = true ->
                 env_or (env !! "FACILITATOR_URL") "https://x402.org/facilitator"
                 = default "" (env !! "FACILITATOR_URL")).
  { by destruct (env !! "FACILITATOR_URL") as [[|ch r]|]. }
  rewrite start_closed_form, x402_module_closed_form, getConfig_closed_form.
  split; [|split].
  - intros ->. by rewrite !andb_false_r.
  - intros -> -> -> Hf Hcdp. rewrite Hf, (Hurl Hf). cbn [andb].
    destruct (String.eqb_spec (env_or (env !! "NETWORK") "base") "base") as [Hb|Hb];
      cbn [negb orb].
    + destruct (Hcdp Hb) as [-> ->]. cbn [andb]. eauto.
    + eauto.
  - intros c.
    destruct (env_truthy (env !! "GOOGLE_PLACES_API_KEY")); [|discriminate].
    destruct (env_truthy (env !! "PAYMENT_WALLET_ADDRESS")); [|discriminate].
    destruct (env_truthy (env !! "FACILITATOR_URL")) eqn:Hf; [|discriminate].
    destruct (includes_network (env_or (env !! "NETWORK") "base")) eqn:Hn;
      [|discriminate].
    cbn [andb]. rewrite (Hurl eq_refl).
    destruct (_ || _); [|discriminate].
    intros [= <-]. cbn [network]. by rewrite Hn.
Qed.

Lemma network_decides_startup_examples :
  Server.start Examples.env_ethereum = Exit 1
  /\ exists c, Server.start (<["NETWORK" := "avalanche"]> Examples.env) = Loaded c
               /\ getConfig (<["NETWORK" := "avalanche"]> Examples.env) = Some c
               /\ network c = "avalanche".
Proof.
  split.
  - destruct (network_decides_startup Examples.env_ethereum) as (Hout & _ & _).
    apply Hout. reflexivity.
  - destruct (network_decides_startup (<["NETWORK" := "avalanche"]> Examples.env))
      as (_ & Hin & _).
    destruct Hin as (c & Hstart & _ & Hget & Hnet); try reflexivity.
    { intros H. vm_compute in H. discriminate. }
    exists c. split; [exact Hstart|]. split; [exact Hget|]. exact Hnet.
Defined.

End NetworkResolution.

(** ** Runs of the registration service *)
Section RegistrationCoverage.
Import Registration Runs.

Variable registry : nat -> registry_call.

Lemma register_loop_shape s left attempt :
  (attempt + left = S (cfg_retryAttempts (config s)))%nat ->
  let r := register_loop registry s left attempt in
  exists k, (k <= left)%nat
            /\ (left <> 0%nat -> k <> 0%nat)
            /\ trace r = attempts_from (cfg_retryDelayMs (config s)) k attempt
            /\ (success (result r) = false -> k = left).
Proof.
  revert attempt. induction left as [|left IH]; intros attempt Hsum; cbn zeta.
  { exists 0%nat. repeat split; try done. }
  assert (Hstop : forall r0 s0,
            exists k, (k <= S left)%nat /\ (S left <> 0%nat -> k <> 0%nat)
                      /\ [RegisterCall attempt]
                         = attempts_from (cfg_retryDelayMs (config s)) k attempt
                      /\ (success (result {| result := r0; after := s0;
                                              trace := [RegisterCall attempt] |}) = false
                          -> success r0 = true -> k = S left)).
  { intros r0 s0. exists 1%nat. repeat split; try lia; try done.
    cbn [result]. congruence. }
  assert (Hcontinue :
    let rest := register_loop registry s left (S attempt) in
    exists k, (k <= S left)%nat /\ (S left <> 0%nat -> k <> 0%nat)
              /\ (RegisterCall attempt
                    :: wait_before_retry (config s) attempt ++ trace rest)%list
                 = attempts_from (cfg_retryDelayMs (config s)) k attempt
              /\ (success (result rest) = false -> k = S left)).
  { cbn zeta. destruct (IH (S attempt)) as (k & Hk & Hnz & Ht & Hfail); [lia|].
    exists (S k). split; [lia|]. split; [lia|]. split; [|intros H; f_equal; auto].
    rewrite Ht. unfold wait_before_retry.
    destruct left as [|left'].
    - assert (k = 0%nat) as -> by lia.
      destruct (Nat.ltb_spec attempt (cfg_retryAttempts (config s))); [lia|].
      reflexivity.
    - destruct (Nat.ltb_spec attempt (cfg_retryAttempts (config s))); [|lia].
      destruct k as [|k']; [by destruct Hnz|]. reflexivity. }
  rewrite register_loop_step.
  destruct (attemptRegistration (registry attempt)) as [r0|e]; [|exact Hcontinue].
  destruct (success r0) eqn:Hs.
  - destruct (Hstop r0 (set_registered s)) as (k & H1 & H2 & H3 & H4).
    exists k. repeat split; try done. cbn [result]. congruence.
  - destruct (error_says_already_registered r0); [|exact Hcontinue].
    destruct (Hstop already_registered_result (set_registered s))
      as (k & H1 & H2 & H3 & H4).
    exists k. repeat split; try done.
Qed.

Lemma register_loop_failure s left attempt :
  success (result (register_loop registry s left attempt)) = false ->
  forall n, (attempt <= n < attempt + left)%nat -> fails (registry n) = true.
Proof.
  revert attempt. induction left as [|left IH]; intros attempt Hfail n Hn; [lia|].
  rewrite register_loop_step in Hfail. unfold fails.
  destruct (decide (n = attempt)) as [->|Hne].
  - destruct (attemptRegistration (registry attempt)) as [r0|e]; [|reflexivity].
    destruct (success r0) eqn:Hs; [cbn [result] in Hfail; congruence|].
    destruct (error_says_already_registered r0); [discriminate|reflexivity].
  - fold (fails (registry n)). apply (IH (S attempt)); [|lia].
    destruct (attemptRegistration (registry attempt)) as [r0|e]; [|exact Hfail].
    destruct (success r0) eqn:Hs; [cbn [result] in Hfail; congruence|].
    destruct (error_says_already_registered r0); [discriminate|exact Hfail].
Qed.

Lemma register_trace_prefix (s : service) :
  let r := register registry s in
  exists k, (k <= cfg_retryAttempts (config s))%nat
            /\ trace r = attempts_from (cfg_retryDelayMs (config s)) k 1
            /\ count_calls (trace r) = k
            /\ count_delays (trace r) = (k - 1)%nat
            /\ (success (result r) = false -> k = cfg_retryAttempts (config s)).
Proof.
  cbn zeta. unfold register. destruct (registered s).
  - exists 0%nat. repeat split; try done; lia.
  - destruct (register_loop_shape s (cfg_retryAttempts (config s)) 1)
      as (k & Hk & _ & Ht & Hfail); [lia|].
    exists k. rewrite Ht, count_calls_attempts, count_delays_attempts. auto.
Qed.

(** X15. Retries are bounded: every run of [register] is a prefix of the
    schedule "attempt 1, wait, attempt 2, wait, ...", cut after an attempt:
    it makes at most the configured number of attempts, numbered from 1,
    waits the configured delay between two attempts and never after the
    last one it makes; a run that ends in failure has made them all. *)
Theorem register_run_is_bounded (s : service) :
  let r := register registry s in
  exists k, (k <= cfg_retryAttempts (config s))%nat
            /\ trace r = attempts_from (cfg_retryDelayMs (config s)) k 1
            /\ count_calls (trace r) = k
            /\ count_delays (trace r) = (k - 1)%nat
            /\ (success (result r) = false -> k = cfg_retryAttempts (config s)).
Proof.
  intros. apply register_trace_prefix; assumption.
Qed.

Lemma register_failure_iff (s : service) :
  success (result (register registry s)) = false <->
  registered s = false
  /\ forall n, (1 <= n <= cfg_retryAttempts (config s))%nat ->
                fails (registry n) = true.
Proof.
  unfold register. split.
  - destruct (registered s); [discriminate|]. intros Hfail. split; [reflexivity|].
    intros n Hn. apply (register_loop_failure _ _ _ Hfail). lia.
  - intros [-> Hall].
    rewrite (register_loop_all_fail registry) by (try lia; intros n Hn; apply Hall; lia).
    reflexivity.
Qed.

(** X16. [register] reports failure exactly when the service is not yet
    marked registered and every one of the configured attempts fails. *)
Theorem register_fails_exactly (s : service) :
  success (result (register registry s)) = false <->
  registered s = false
  /\ forall n, (1 <= n <= cfg_retryAttempts (config s))%nat ->
                fails (registry n) = true.
Proof.
  intros. apply register_failure_iff; assumption.
Qed.

(** X17. After [register] the flag of the service says what the result
    said: the service is marked registered exactly when the result is a
    success. *)
Theorem register_result_is_the_flag (s : service) :
  registered (after (register registry s)) = success (result (register registry s)).
Proof.
  destruct (success (result (register registry s))) eqn:Hs.
  - unfold register in *. destruct (registered s) eqn:Hflag; [exact Hflag|].
    by apply register_loop_success_sets_flag.
  - apply register_failure_iff in Hs as [Hflag Hall].
    unfold register. rewrite Hflag.
    rewrite (register_loop_all_fail registry) by (try lia; intros n Hn; apply Hall; lia).
    exact Hflag.
Qed.

End RegistrationCoverage.

(** ** Matching and verification *)
Section VerificationCoverage.
Import Registration Runs.

Lemma slash_cases (s : string) :
  (ends_with_slash s = false /\ JS.replace_trailing_slash s = s)
  \/ (ends_with_slash s = true
      /\ exists b, s = b ++ "/" /\ JS.replace_trailing_slash s = b).
Proof.
  induction s as [|c r IH]; [by left|].
  destruct r as [|c' r'].
  - cbn [ends_with_slash JS.replace_trailing_slash].
    destruct (Ascii.eqb_spec c "/") as [->|Hc]; [|by left].
    right. split; [reflexivity|]. by exists "".
  - change (ends_with_slash (String c (String c' r')))
      with (ends_with_slash (String c' r')).
    change (JS.replace_trailing_slash (String c (String c' r')))
      with (String c (JS.replace_trailing_slash (String c' r'))).
    destruct IH as [[He Hr]|[He (b & Hb & Hr)]].
    + left. by rewrite Hr.
    + right. split; [exact He|]. exists (String c b). rewrite Hr, Hb. by split.
Qed.

(** X18. Which vendors match: the predicate given to [find] holds exactly
    when the vendor's URL is the own URL, or one of the two is the other
    followed by a single slash where the other does not itself end in a
    slash. *)
Theorem is_our_vendor_exactly (self : string) (v : Vendor) :
  is_our_vendor self v = true <->
  url v = self
  \/ (url v = self ++ "/" /\ ends_with_slash self = false)
  \/ (self = url v ++ "/" /\ ends_with_slash (url v) = false).
Proof.
  split.
  - unfold is_our_vendor. intros [Heq|Hstrip]%orb_prop.
    { left. by apply String.eqb_eq. }
    apply String.eqb_eq in Hstrip.
    destruct (slash_cases (url v)) as [[Hu Hru]|[Hu (bu & Hbu & Hru)]],
      (slash_cases self) as [[Hs Hrs]|[Hs (bs & Hbs & Hrs)]];
      rewrite Hru, Hrs in Hstrip.
    + by left.
    + right. right. subst bs. by split.
    + right. left. subst bu. by split.
    + left. subst bu. by rewrite Hbu, Hbs.
  - intros [Heq|[[Hu Hs]|[Hs Hu]]].
    + unfold is_our_vendor. by rewrite Heq, String.eqb_refl.
    + apply (is_our_vendor_trailing_slash self self v Hs). right. by split.
    + apply (is_our_vendor_trailing_slash self (url v) v Hu). left. by split.
Qed.




End VerificationCoverage.

(** ** Start-up registration *)
Section StartupCoverage.
Import Registration Runs Startup.





End StartupCoverage.

(** ** The registration routes *)
Section RegisterRoutesCoverage.
Import Config Registration Runs RegisterRoutes.

(** X21. The registration payload advertises the priced route with its
    method and path taken apart and with exactly the configured price:
    the dollar sign that [paymentRoutes] puts in front of the price is
    removed again, also when the configured price itself holds one. *)
Theorem registrationPayload_endpoint
    (env : environment) (x402Config : PaymentConfig) (input output : value) :
  get (registrationPayload env x402Config input output) "endpoints"
  = VArr [ VObj {[ "path" := VStr "/api/places/text-search";
                   "method" := VStr "POST";
                   "description" :=
                     VStr "Search for places, businesses, and points of interest using Google Places API with real-time data and comprehensive location information";
                   "priceUsd" := VStr (priceUsd x402Config);
                   "inputSchema" := input;
                   "outputSchema" := output ]} ]
  /\ get (registrationPayload env x402Config input output) "priceUsd"
     = VStr (priceUsd x402Config).
Proof.
  unfold registrationPayload, get. split.
  - by simplify_map_eq.
  - by simplify_map_eq.
Qed.

(** X22. The manual route and the service disagree on "already
    registered": for a reply of the Stack that is not a success and whose
    error says "already registered", [POST /api/register] answers 400 with
    [success: false] and that error, whereas [register()] of a service
    that is not yet marked registered, and has at least one attempt,
    returns success with [alreadyRegistered: true] after that one
    attempt, and is marked registered afterwards. *)
Theorem already_registered_route_and_service
    (env : environment) (r : StackReply) (e : string) (status : nat) (s : service) :
  stack_ok r && stack_success r = false ->
  stack_error r = Some e ->
  JS.includes "already registered" e = true ->
  registered s = false ->
  (1 <= cfg_retryAttempts (config s))%nat ->
  let answer := register_route env (Returned r) in
  let run := register (fun _ => Returned (as_register_reply status r)) s in
  Server.status answer = 400%nat
  /\ get (Server.body answer) "success" = VBool false
  /\ get (Server.body answer) "error" = VStr e
  /\ result run = already_registered_result
  /\ trace run = [RegisterCall 1%nat]
  /\ registered (after run) = true.
Proof.
  intros Hfail Herr Hsays Hflag Hn. cbn zeta.
  assert (Hne : or_string (Some e) "Registration failed" = e
                /\ forall d, or_string (Some e) d = e).
  { destruct e; [discriminate|]. by split. }
  assert (Hcond : negb (stack_ok r) || negb (stack_success r) = true).
  { by destruct (stack_ok r), (stack_success r). }
  unfold register_route. rewrite Hcond, Herr, (proj1 Hne).
  cbn [Server.status Server.body].
  split; [reflexivity|]. split; [by simplify_map_eq|]. split; [by simplify_map_eq|].
  unfold register. rewrite Hflag.
  destruct (cfg_retryAttempts (config s)) as [|left]; [lia|].
  rewrite register_loop_step. unfold attemptRegistration, as_register_reply.
  cbn [bind reply_ok data_success data_error reply_status].
  rewrite Hcond, Herr, (proj2 Hne). cbn [success].
  unfold error_says_already_registered. cbn [error]. rewrite Hsays.
  cbn [result trace after set_registered registered].
  split; [reflexivity|]. split; reflexivity.
Qed.

(** X23. The status route and the service agree: for the same own URL and
    the same answer of the Stack, [GET /api/register/status] reports
    [registered] exactly when [verifyRegistration] does, with the same
    vendor; it answers 500 only when the request for the vendor list
    throws. *)
Theorem status_handler_agrees_with_service
    (env : environment) (call : outcome VendorsReply) (s : service) :
  cfg_selfUrl (config s) = route_serverUrl env ->
  let answer := status_handler env call in
  let v := result (verifyRegistration call s) in
  fst (snd answer) = v_registered v
  /\ option_map id (snd (snd answer)) = v_vendorId v
  /\ (fst answer = 500%nat <-> exists m, call = Thrown m)
  /\ (fst answer = 500%nat \/ fst answer = 200%nat).
Proof.
  intros Hself. cbn zeta. unfold status_handler, verifyRegistration, status_route.
  rewrite Hself.
  destruct call as [reply|m]; cbn [fst snd result v_registered v_vendorId option_map].
  - destruct (vendors_ok reply); cbn [negb fst snd result v_registered v_vendorId option_map].
    + destruct (find_our_vendor (route_serverUrl env) (default [] (vendors reply)));
        cbn [fst snd result v_registered v_vendorId option_map];
        (repeat split; try done; try (by intros [m Hm]); auto).
    + repeat split; try done; try (by intros [m Hm]); auto.
  - repeat split; try done; eauto.
Qed.

End RegisterRoutesCoverage.

Section RegisterRoutesExamples.
Import Config Registration Runs RegisterRoutes.

Lemma already_registered_route_and_service_example :
  let r := {| stack_ok := false; stack_success := false;
              stack_error := Some "Vendor already registered";
              stack_vendor := VUndefined; stack_mode := VUndefined |} in
  Server.status (register_route ∅ (Returned r)) = 400%nat
  /\ success (result (register (fun _ => Returned (as_register_reply 409 r))
                               (default_service "http://host:3000"))) = true
  /\ registered (after (register (fun _ => Returned (as_register_reply 409 r))
                                 (default_service "http://host:3000"))) = true.
Proof.
  cbn zeta.
  destruct (already_registered_route_and_service ∅
              {| stack_ok := false; stack_success := false;
                 stack_error := Some "Vendor already registered";
                 stack_vendor := VUndefined; stack_mode := VUndefined |}
              "Vendor already registered" 409 (default_service "http://host:3000"))
    as (H400 & _ & _ & Hrun & _ & Hflag); try reflexivity.
  { vm_compute. lia. }
  split; [exact H400|]. split; [by rewrite Hrun|exact Hflag].
Defined.

Lemma status_handler_agrees_example :
  let env : environment := {[ "SERVER_URL" := "http://host:3000" ]} in
  let call := Returned (vendors_reply [ {| id := "v1"; url := "http://host:3000/" |} ]) in
  fst (snd (status_handler env call)) = true
  /\ v_registered (result (verifyRegistration call (default_service "http://host:3000")))
     = true.
Proof.
  cbn zeta.
  destruct (status_handler_agrees_with_service
              {[ "SERVER_URL" := "http://host:3000" ]}
              (Returned (vendors_reply [ {| id := "v1"; url := "http://host:3000/" |} ]))
              (default_service "http://host:3000"))
    as (Hreg & _); [reflexivity|].
  split; [reflexivity|]. rewrite <- Hreg. reflexivity.
Defined.

End RegisterRoutesExamples.

(** ** The facilitator of a started server *)
Section FacilitatorCoverage.
Import Config Facilitators.

(** X24. A server that got past its start-up hands the payment middleware
    a facilitator that fits its network: on [base] the built-in CDP
    facilitator, with both CDP credentials set; on any other network the
    facilitator at FACILITATOR_URL, which is set and not empty. The
    network is one of the valid networks in both cases. *)
Theorem started_server_facilitator (env : environment) (c : PaymentConfig) :
  Server.start env = Loaded c ->
  includes_network (network c) = true
  /\ match getFacilitator c with
     | CdpFacilitator =>
         network c = "base"
         /\ env_truthy (env !! "CDP_API_KEY_ID") = true
         /\ env_truthy (env !! "CDP_API_KEY_SECRET") = true
     | UrlFacilitator u =>
         network c <> "base" /\ env !! "FACILITATOR_URL" = Some u /\ u <> ""
     end.
Proof.
  rewrite start_closed_form.
  destruct (env_truthy (env !! "GOOGLE_PLACES_API_KEY")); [|discriminate].
  destruct (env_truthy (env !! "PAYMENT_WALLET_ADDRESS")); [|discriminate].
  destruct (env_truthy (env !! "FACILITATOR_URL")) eqn:Hf; [|discriminate].
  destruct (includes_network (env_or (env !! "NETWORK") "base")) eqn:Hn;
    [|discriminate].
  cbn [andb]. unfold getFacilitator.
  destruct (String.eqb_spec (env_or (env !! "NETWORK") "base") "base") as [Hb|Hb];
    cbn [negb orb].
  - destruct (env_truthy (env !! "CDP_API_KEY_ID")); [|discriminate].
    destruct (env_truthy (env !! "CDP_API_KEY_SECRET")); [|discriminate].
    intros [= <-]. cbn [network facilitatorUrl]. split; [exact Hn|].
    rewrite Hb. by cbn.
  - intros [= <-]. cbn [network facilitatorUrl]. split; [exact Hn|].
    destruct (String.eqb_spec (env_or (env !! "NETWORK") "base") "base");
      [congruence|].
    split; [exact Hb|].
    destruct (env !! "FACILITATOR_URL") as [[|ch r]|]; try discriminate.
    by split.
Qed.

Lemma started_server_facilitator_example :
  let env : environment :=
    {[ "GOOGLE_PLACES_API_KEY" := "key"; "PAYMENT_WALLET_ADDRESS" := "0xabc";
       "FACILITATOR_URL" := "https://stack.perkos.xyz"; "NETWORK" := "avalanche" ]} in
  exists c, Server.start env = Loaded c
            /\ getFacilitator c = UrlFacilitator "https://stack.perkos.xyz".
Proof.
  cbn zeta.
  destruct (Server.start {[ "GOOGLE_PLACES_API_KEY" := "key";
                            "PAYMENT_WALLET_ADDRESS" := "0xabc";
                            "FACILITATOR_URL" := "https://stack.perkos.xyz";
                            "NETWORK" := "avalanche" ]}) as [code|c] eqn:E;
    [vm_compute in E; discriminate|].
  exists c. split; [reflexivity|].
  destruct (started_server_facilitator _ c E) as [_ H].
  destruct (getFacilitator c) as [|u].
  - destruct H as [Hb _]. vm_compute in E. injection E as <-. discriminate.
  - destruct H as (_ & Hu & _). vm_compute in Hu. by injection Hu as <-.
Defined.

End FacilitatorCoverage.
